(** * Ay11Sutra audit pipeline: a shallow embedding and its properties

    The Python sources embedded here are
    - [cache/dom_cache.py]        ([compute_dom_hash]),
    - [cache/redis_cache.py]      (the two caches and their keys),
    - [tools/dom_scanner.py]      ([clean_violations]),
    - [main.py]                   ([start_audit]),
    - [guardrails/output_guard.py] ([validate_fix]),
    - [guardrails/input_guard.py]  ([validate_input]),
    - [tools/wcag_mapper.py]      ([enrich_with_wcag]),
    - [tools/critic.py]           ([critique_issues]),
    - [slm/fast_critic.py]        ([heuristic_filter], [model_based_filter],
                                   [fast_critique]),
    - [graph/nodes.py]            (the seven pipeline nodes),
    - [backend/graph/workflow.py] (the linear chain of nodes).

    Conventions of the embedding.
    - A Python [str] is a [string]; its characters are the code points below
      256, so the character classes of [re] ([\s], [\w], [\b], IGNORECASE) are
      the Unicode ones restricted to that range.  [compute_dom_hash] is also
      given on every sequence of code points ([Unicode]), where encoding
      can fail.
    - A dictionary with a fixed set of keys is a record; a key that may be
      absent is an [option] field, and [d.get(k, default)] is [or_default].
    - Every call that leaves the process (the browser scan, the reasoning
      oracle, [urllib.parse.urlparse]) is a field of a [World] record: the
      theorems hold for every world.
    - The dictionaries that [fixer_node] mutates in place are objects of a
      store; the state holds references to them.
    - The graph is [StateGraph(AuditState)]: of what a node returns, the
      keys that state.py declares reach the next node, and no other. *)

From Stdlib Require Import List String Ascii Bool Arith NArith ZArith Lia.
From Stdlib Require Import QArith.
From Stdlib Require Import Permutation.
From Stdlib Require Import Numbers.DecimalString.
Import ListNotations.

Close Scope Q_scope.
Local Open Scope bool_scope.
Local Open Scope list_scope.

Set Implicit Arguments.

(* ===================================================================== *)
(** * Part I: definitions                                                 *)
(* ===================================================================== *)

(** ** Text: characters, classes and the regular-expression passes *)

Module Text.

Definition text := list ascii.

Definition of_string : string -> text := list_ascii_of_string.
Definition to_string : text -> string := string_of_list_ascii.

Definition code (c : ascii) : N := N_of_ascii c.

Definition in_range (lo hi : N) (c : ascii) : bool :=
  (lo <=? code c)%N && (code c <=? hi)%N.

(** [\s] of [re] on [str], and the characters [str.strip()] removes:
    the code points for which [str.isspace()] holds. *)
Definition is_space (c : ascii) : bool :=
  in_range 9 13 c || in_range 28 32 c
  || (code c =? 133)%N || (code c =? 160)%N.

Definition is_upper (c : ascii) : bool := in_range 65 90 c.
Definition is_lower (c : ascii) : bool := in_range 97 122 c.
Definition is_digit (c : ascii) : bool := in_range 48 57 c.

(** The class [[a-zA-Z0-9]]. *)
Definition is_alnum (c : ascii) : bool :=
  is_lower c || is_upper c || is_digit c.

(** The class [[a-zA-Z0-9_-]]. *)
Definition is_data_name (c : ascii) : bool :=
  is_alnum c || (code c =? 95)%N || (code c =? 45)%N.

(** [\w] of [re] on [str]: alphanumeric code points and the underscore. *)
Definition is_word (c : ascii) : bool :=
  is_alnum c || (code c =? 95)%N
  || (code c =? 170)%N || (code c =? 178)%N || (code c =? 179)%N
  || (code c =? 181)%N || (code c =? 185)%N || (code c =? 186)%N
  || in_range 188 190 c || in_range 192 214 c
  || in_range 216 246 c || in_range 248 255 c.

(** Case folding of the letters a pattern of this program contains. *)
Definition lower (c : ascii) : ascii :=
  if is_upper c then ascii_of_N (code c + 32) else c.

Definition eqb_ci (p c : ascii) : bool := Ascii.eqb (lower p) (lower c).

(** [strip_prefix_by eq p s]: the rest of [s] after the literal [p], when
    [s] starts with it. *)
Fixpoint strip_prefix_by (eq : ascii -> ascii -> bool) (p s : text)
  : option text :=
  match p, s with
  | [], _ => Some s
  | _ :: _, [] => None
  | a :: p', c :: s' => if eq a c then strip_prefix_by eq p' s' else None
  end.

Definition strip_prefix : text -> text -> option text :=
  strip_prefix_by Ascii.eqb.
Definition strip_prefix_ci : text -> text -> option text :=
  strip_prefix_by eqb_ci.

(** [after_first_by eq p s]: the rest of [s] after the first occurrence of
    the literal [p]; this is [.*?p] under DOTALL. *)
Fixpoint after_first_by (eq : ascii -> ascii -> bool) (p s : text)
  : option text :=
  match strip_prefix_by eq p s with
  | Some r => Some r
  | None => match s with
            | [] => None
            | _ :: s' => after_first_by eq p s'
            end
  end.

(** [after_char c s]: the rest of [s] after the first [c]; this is
    [[^c]*c]. *)
Fixpoint after_char (c : ascii) (s : text) : option text :=
  match s with
  | [] => None
  | x :: s' => if Ascii.eqb x c then Some s' else after_char c s'
  end.

Fixpoint drop_while (f : ascii -> bool) (s : text) : text :=
  match s with
  | [] => []
  | c :: s' => if f c then drop_while f s' else s
  end.

Fixpoint take_while (f : ascii -> bool) (s : text) : text :=
  match s with
  | [] => []
  | c :: s' => if f c then c :: take_while f s' else []
  end.

(** A matcher tells, for the text at the current position, what is left
    after the leftmost-first match that starts there. *)
Definition matcher := text -> option text.

(** [re.sub(pattern, '', s)] for a pattern that never matches the empty
    string: scan from the left, delete a match where one starts, go on
    after it.  [skip] counts the characters of the current match that are
    still to be deleted. *)
Fixpoint re_sub_del (m : matcher) (skip : nat) (s : text) : text :=
  match s with
  | [] => []
  | c :: t =>
      match skip with
      | S k => re_sub_del m k t
      | O =>
          match m s with
          | Some r =>
              if List.length r <? List.length s
              then re_sub_del m (List.length s - List.length r - 1) t
              else c :: re_sub_del m 0 t
          | None => c :: re_sub_del m 0 t
          end
      end
  end.

Definition re_sub (m : matcher) (s : text) : text := re_sub_del m 0 s.

(** [re.sub(r'\s+', ' ', s)]. *)
Fixpoint collapse_ws (in_run : bool) (s : text) : text :=
  match s with
  | [] => []
  | c :: t =>
      if is_space c
      then (if in_run then collapse_ws true t
            else " "%char :: collapse_ws true t)
      else c :: collapse_ws false t
  end.

(** [s.strip()]. *)
Definition strip (s : text) : text :=
  rev (drop_while is_space (rev (drop_while is_space s))).

(** [needle in haystack] for strings. *)
Fixpoint contains_by (eq : ascii -> ascii -> bool) (p s : text) : bool :=
  match strip_prefix_by eq p s with
  | Some _ => true
  | None => match s with
            | [] => false
            | _ :: s' => contains_by eq p s'
            end
  end.

Definition contains (p s : string) : bool :=
  contains_by Ascii.eqb (of_string p) (of_string s).

(** [str.lower()] on code points below 256. *)
Definition py_lower (c : ascii) : ascii :=
  if is_upper c || (in_range 192 222 c && negb (code c =? 215)%N)
  then ascii_of_N (code c + 32) else c.

(** The double quote, as a character and as a string. *)
Definition dq : ascii := "034"%char.
Definition dqs : string := String dq EmptyString.

(** [str(n)] for a non-negative integer. *)
Definition decimal (n : nat) : string :=
  NilZero.string_of_uint (Nat.to_uint n).

End Text.

(** ** guardrails/output_guard.py *)

Module OutputGuard.
Import Text.

(** [<script\b[^>]*>.*?</script>] under IGNORECASE and DOTALL. *)
Definition script_block : matcher := fun s =>
  match strip_prefix_ci (of_string "<script") s with
  | None => None
  | Some r =>
      match r with
      | [] => None
      | c :: _ =>
          if is_word c then None
          else match after_char ">" r with
               | None => None
               | Some body => after_first_by eqb_ci (of_string "</script>") body
               end
      end
  end.

(** [javascript:] under IGNORECASE. *)
Definition javascript_scheme : matcher :=
  strip_prefix_ci (of_string "javascript:").

(** [\son\w+=Q[^Q]*Q] under IGNORECASE, for the quote character [Q]. *)
Definition event_handler (quote : ascii) : matcher := fun s =>
  match s with
  | [] => None
  | c :: r =>
      if is_space c then
        match strip_prefix_ci (of_string "on") r with
        | None => None
        | Some r1 =>
            match take_while is_word r1 with
            | [] => None
            | _ :: _ =>
                match strip_prefix ["="%char; quote]
                        (drop_while is_word r1) with
                | None => None
                | Some r2 => after_char quote r2
                end
            end
        end
      else None
  end.

Definition marker : string :=
  String "010" "<!-- EmpathAI Guard: Unsafe content removed -->".

Definition sanitize (s : text) : text :=
  re_sub (event_handler "'")
    (re_sub (event_handler dq)
       (re_sub javascript_scheme (re_sub script_block s))).

Definition validate_fix (fix_code : string) : string :=
  match fix_code with
  | EmptyString => EmptyString
  | _ =>
      let cleaned := to_string (sanitize (of_string fix_code)) in
      if String.eqb cleaned fix_code then cleaned
      else (cleaned ++ marker)%string
  end.

End OutputGuard.

(** ** SHA-256 (FIPS 180-4), the function behind [hashlib.sha256] *)

Module Sha256.
Local Open Scope N_scope.

Definition w32 (x : N) : N := N.land x 0xffffffff.
Definition add32 (x y : N) : N := w32 (x + y).
Definition rotr (n x : N) : N :=
  N.lor (N.shiftr x n) (w32 (N.shiftl x (32 - n))).
Definition not32 (x : N) : N := N.lxor x 0xffffffff.

Definition Ch (x y z : N) : N := N.lxor (N.land x y) (N.land (not32 x) z).
Definition Maj (x y z : N) : N :=
  N.lxor (N.lxor (N.land x y) (N.land x z)) (N.land y z).
Definition Sigma0 (x : N) : N :=
  N.lxor (N.lxor (rotr 2 x) (rotr 13 x)) (rotr 22 x).
Definition Sigma1 (x : N) : N :=
  N.lxor (N.lxor (rotr 6 x) (rotr 11 x)) (rotr 25 x).
Definition sigma0 (x : N) : N :=
  N.lxor (N.lxor (rotr 7 x) (rotr 18 x)) (N.shiftr x 3).
Definition sigma1 (x : N) : N :=
  N.lxor (N.lxor (rotr 17 x) (rotr 19 x)) (N.shiftr x 10).

(** The constants are fractional parts of roots of primes: the round
    constant of a prime is the first 32 bits of the fractional part of its
    cube root, the initial hash value those of its square root. *)
Fixpoint root_bits (degree : N) (bits : nat) (x r : N) : N :=
  match bits with
  | O => r
  | S b =>
      let candidate := N.lor r (N.shiftl 1 (N.of_nat b)) in
      root_bits degree b x
                (if candidate ^ degree <=? x then candidate else r)
  end.

Definition fraction_of_root (degree p : N) : N :=
  w32 (root_bits degree 40 (N.shiftl p (32 * degree)) 0).

Definition primes : list N :=
  [ 2; 3; 5; 7; 11; 13; 17; 19; 23; 29; 31; 37; 41; 43; 47; 53;
    59; 61; 67; 71; 73; 79; 83; 89; 97; 101; 103; 107; 109; 113; 127; 131;
    137; 139; 149; 151; 157; 163; 167; 173; 179; 181; 191; 193; 197; 199;
    211; 223; 227; 229; 233; 239; 241; 251; 257; 263; 269; 271; 277; 281;
    283; 293; 307; 311 ].

Definition K : list N := map (fraction_of_root 3) primes.

(** The eight working variables, and the hash value between blocks. *)
Record regs := Regs
  { ra : N; rb : N; rc : N; rd : N; re : N; rf : N; rg : N; rh : N }.

Definition regs_of (l : list N) : regs :=
  match l with
  | [a; b; c; d; e; f; g; h] => Regs a b c d e f g h
  | _ => Regs 0 0 0 0 0 0 0 0
  end.

Definition H0 : regs :=
  regs_of (map (fraction_of_root 2) (firstn 8 primes)).

(** Padding: the bit 1, zeros up to 56 modulo 64, the bit length on 64
    bits, big-endian. *)
Definition be_bytes (count : nat) (x : N) : list N :=
  map (fun i => N.land (N.shiftr x (8 * N.of_nat i)) 0xff)
      (rev (seq 0 count)).

Definition pad (msg : list N) : list N :=
  let len := List.length msg in
  let zeros := ((64 - (len + 9) mod 64) mod 64)%nat in
  msg ++ [0x80] ++ repeat 0 zeros ++ be_bytes 8 (8 * N.of_nat len).

Definition be_word (b0 b1 b2 b3 : N) : N :=
  N.lor (N.lor (N.shiftl b0 24) (N.shiftl b1 16))
        (N.lor (N.shiftl b2 8) b3).

Fixpoint words (fuel : nat) (bytes : list N) : list N :=
  match fuel, bytes with
  | S k, b0 :: b1 :: b2 :: b3 :: rest => be_word b0 b1 b2 b3 :: words k rest
  | _, _ => []
  end.

(** The message schedule: [sched] holds W(t-1) ... W(0), newest first. *)
Definition next_w (sched : list N) : N :=
  add32 (add32 (sigma1 (nth 1 sched 0)) (nth 6 sched 0))
        (add32 (sigma0 (nth 14 sched 0)) (nth 15 sched 0)).

Fixpoint extend (count : nat) (sched : list N) : list N :=
  match count with
  | O => sched
  | S k => extend k (next_w sched :: sched)
  end.

Definition schedule (block : list N) : list N :=
  rev (extend 48 (rev block)).

Definition round (r : regs) (kt wt : N) : regs :=
  let t1 := add32 (add32 (add32 (rh r) (Sigma1 (re r)))
                         (add32 (Ch (re r) (rf r) (rg r)) kt)) wt in
  let t2 := add32 (Sigma0 (ra r)) (Maj (ra r) (rb r) (rc r)) in
  Regs (add32 t1 t2) (ra r) (rb r) (rc r)
       (add32 (rd r) t1) (re r) (rf r) (rg r).

Fixpoint rounds (r : regs) (ks ws : list N) : regs :=
  match ks, ws with
  | k :: ks', w :: ws' => rounds (round r k w) ks' ws'
  | _, _ => r
  end.

Definition compress (h : regs) (block : list N) : regs :=
  let r := rounds h K (schedule block) in
  Regs (add32 (ra h) (ra r)) (add32 (rb h) (rb r))
       (add32 (rc h) (rc r)) (add32 (rd h) (rd r))
       (add32 (re h) (re r)) (add32 (rf h) (rf r))
       (add32 (rg h) (rg r)) (add32 (rh h) (rh r)).

Fixpoint blocks (fuel : nat) (h : regs) (ws : list N) : regs :=
  match fuel, ws with
  | S k, _ :: _ => blocks k (compress h (firstn 16 ws)) (skipn 16 ws)
  | _, _ => h
  end.

Definition digest (msg : list N) : regs :=
  let padded := pad msg in
  let ws := words (List.length padded) padded in
  blocks (List.length ws) H0 ws.

(** [hexdigest()]: eight words of eight lowercase hexadecimal digits. *)
Definition hex_digit (n : N) : ascii :=
  nth (N.to_nat (N.land n 15)) (Text.of_string "0123456789abcdef") "0"%char.

Definition hex_word (x : N) : Text.text :=
  [ hex_digit (N.shiftr x 28); hex_digit (N.shiftr x 24);
    hex_digit (N.shiftr x 20); hex_digit (N.shiftr x 16);
    hex_digit (N.shiftr x 12); hex_digit (N.shiftr x 8);
    hex_digit (N.shiftr x 4); hex_digit x ].

Definition hex_regs (r : regs) : Text.text :=
  hex_word (ra r) ++ hex_word (rb r) ++ hex_word (rc r) ++ hex_word (rd r)
  ++ hex_word (re r) ++ hex_word (rf r) ++ hex_word (rg r) ++ hex_word (rh r).

Definition hexdigest (msg : list N) : string :=
  Text.to_string (hex_regs (digest msg)).

End Sha256.

(** ** cache/dom_cache.py and cache/redis_cache.py *)

Module DomCache.
Import Text.

(** [<TAG[^>]*>.*?</TAG>] under DOTALL and IGNORECASE. *)
Definition element (tag : string) : matcher := fun s =>
  match strip_prefix_ci (of_string ("<" ++ tag)) s with
  | None => None
  | Some r =>
      match after_char ">" r with
      | None => None
      | Some body =>
          after_first_by eqb_ci (of_string ("</" ++ tag ++ ">")) body
      end
  end.

(** [<!--.*?-->] under DOTALL. *)
Definition comment : matcher := fun s =>
  match strip_prefix (of_string "<!--") s with
  | None => None
  | Some r => after_first_by Ascii.eqb (of_string "-->") r
  end.

(** [\s+data-[a-zA-Z0-9_-]+=Q[^Q]*Q], where Q is the double quote. *)
Definition data_attribute : matcher := fun s =>
  match take_while is_space s with
  | [] => None
  | _ :: _ =>
      match strip_prefix (of_string "data-") (drop_while is_space s) with
      | None => None
      | Some r =>
          match take_while is_data_name r with
          | [] => None
          | _ :: _ =>
              match strip_prefix ["="%char; dq]
                      (drop_while is_data_name r) with
              | None => None
              | Some v => after_char dq v
              end
          end
      end
  end.

(** [\s+id=Q[a-zA-Z0-9]{20,}Q], where Q is the double quote. *)
Definition session_id : matcher := fun s =>
  match take_while is_space s with
  | [] => None
  | _ :: _ =>
      match strip_prefix (of_string "id=" ++ [dq]) (drop_while is_space s) with
      | None => None
      | Some r =>
          if (20 <=? List.length (take_while is_alnum r))%nat
          then strip_prefix [dq] (drop_while is_alnum r)
          else None
      end
  end.

(** The text that is hashed. *)
Definition normalize (html : text) : text :=
  let clean := re_sub (element "script") html in
  let clean := re_sub (element "iframe") clean in
  let clean := re_sub (element "noscript") clean in
  let clean := re_sub (element "style") clean in
  let clean := re_sub comment clean in
  let clean := re_sub data_attribute clean in
  let clean := re_sub session_id clean in
  let clean := collapse_ws false clean in
  strip clean.

(** [str.encode('utf-8')] on code points below 256, where it cannot
    raise; [Unicode.encode] is the encoder of every string. *)
Definition utf8 (s : text) : list N :=
  flat_map (fun c =>
              let n := code c in
              if (n <? 128)%N then [n]
              else [N.lor 192 (N.shiftr n 6); N.lor 128 (N.land n 63)]) s.

Definition compute_dom_hash (html : string) : string :=
  Sha256.hexdigest (utf8 (normalize (of_string html))).

Definition is_same_dom (hash1 hash2 : string) : bool :=
  String.eqb hash1 hash2.

(** [s[:n]] for strings. *)
Definition prefix (n : nat) (s : string) : string :=
  to_string (firstn n (of_string s)).

(** [_get_cache_key] of redis_cache.py. *)
Definition _get_cache_key (url dom_hash : string) : string :=
  ("audit:" ++ prefix 16 dom_hash ++ ":" ++ prefix 100 url)%string.

End DomCache.

(** ** cache/dom_cache.py on every string

    [DomCache] above takes the strings of code points below 256; on them
    [str.encode] cannot fail.  Here a string is any sequence of code
    points, the classes of [re] are the Unicode ones, and [compute_dom_hash]
    returns [None] where the code raises.  The two agree where both are
    defined ([UnicodeFacts.compute_dom_hash_latin1]). *)

Module Unicode.
Local Open Scope N_scope.

(** A Python [str]: its code points, from 0 to 0x10FFFF, the surrogates
    U+D800 to U+DFFF among them. *)
Definition str := list N.

Definition of_text (s : Text.text) : str := map Text.code s.
Definition of_string (s : string) : str := of_text (Text.of_string s).

Definition in_range (lo hi c : N) : bool := (lo <=? c) && (c <=? hi).

(** [\s] of [re] on [str], and the characters [str.strip()] removes: the
    code points for which [str.isspace()] holds. *)
Definition is_space (c : N) : bool :=
  in_range 9 13 c || in_range 28 32 c || (c =? 133) || (c =? 160)
  || (c =? 0x1680) || in_range 0x2000 0x200a c
  || (c =? 0x2028) || (c =? 0x2029) || (c =? 0x202f) || (c =? 0x205f)
  || (c =? 0x3000).

Definition is_upper (c : N) : bool := in_range 65 90 c.
Definition is_lower (c : N) : bool := in_range 97 122 c.
Definition is_digit (c : N) : bool := in_range 48 57 c.

(** The class [[a-zA-Z0-9]]. *)
Definition is_alnum (c : N) : bool := is_lower c || is_upper c || is_digit c.

(** The class [[a-zA-Z0-9_-]]. *)
Definition is_data_name (c : N) : bool :=
  is_alnum c || (c =? 95) || (c =? 45).

(** Case folding under IGNORECASE as an ASCII character of a pattern sees
    it: the ASCII capitals, and the four other code points that match an
    ASCII letter, the dotted capital I and the dotless i (i), the long s
    (s) and the Kelvin sign (k). *)
Definition lower (c : N) : N :=
  if is_upper c then c + 32
  else if (c =? 0x130) || (c =? 0x131) then 0x69
  else if c =? 0x17f then 0x73
  else if c =? 0x212a then 0x6b
  else c.

Definition eqb_ci (p c : N) : bool := lower p =? lower c.

Fixpoint strip_prefix_by (eq : N -> N -> bool) (p s : str) : option str :=
  match p, s with
  | [], _ => Some s
  | _ :: _, [] => None
  | a :: p', c :: s' => if eq a c then strip_prefix_by eq p' s' else None
  end.

Definition strip_prefix : str -> str -> option str := strip_prefix_by N.eqb.
Definition strip_prefix_ci : str -> str -> option str :=
  strip_prefix_by eqb_ci.

Fixpoint after_first_by (eq : N -> N -> bool) (p s : str) : option str :=
  match strip_prefix_by eq p s with
  | Some r => Some r
  | None => match s with
            | [] => None
            | _ :: s' => after_first_by eq p s'
            end
  end.

Fixpoint after_char (c : N) (s : str) : option str :=
  match s with
  | [] => None
  | x :: s' => if x =? c then Some s' else after_char c s'
  end.

Fixpoint drop_while (f : N -> bool) (s : str) : str :=
  match s with
  | [] => []
  | c :: s' => if f c then drop_while f s' else s
  end.

Fixpoint take_while (f : N -> bool) (s : str) : str :=
  match s with
  | [] => []
  | c :: s' => if f c then c :: take_while f s' else []
  end.

Definition matcher := str -> option str.

Fixpoint re_sub_del (m : matcher) (skip : nat) (s : str) : str :=
  match s with
  | [] => []
  | c :: t =>
      match skip with
      | S k => re_sub_del m k t
      | O =>
          match m s with
          | Some r =>
              if (List.length r <? List.length s)%nat
              then re_sub_del m (List.length s - List.length r - 1) t
              else c :: re_sub_del m 0 t
          | None => c :: re_sub_del m 0 t
          end
      end
  end.

Definition re_sub (m : matcher) (s : str) : str := re_sub_del m 0 s.

Fixpoint collapse_ws (in_run : bool) (s : str) : str :=
  match s with
  | [] => []
  | c :: t =>
      if is_space c
      then (if in_run then collapse_ws true t else 32 :: collapse_ws true t)
      else c :: collapse_ws false t
  end.

Definition strip (s : str) : str :=
  rev (drop_while is_space (rev (drop_while is_space s))).

(** [<TAG[^>]*>.*?</TAG>] under DOTALL and IGNORECASE. *)
Definition element (tag : string) : matcher := fun s =>
  match strip_prefix_ci (of_string ("<" ++ tag)%string) s with
  | None => None
  | Some r =>
      match after_char 62 r with
      | None => None
      | Some body =>
          after_first_by eqb_ci (of_string ("</" ++ tag ++ ">")%string) body
      end
  end.

(** [<!--.*?-->] under DOTALL. *)
Definition comment : matcher := fun s =>
  match strip_prefix (of_string "<!--") s with
  | None => None
  | Some r => after_first_by N.eqb (of_string "-->") r
  end.

(** [\s+data-[a-zA-Z0-9_-]+=Q[^Q]*Q], where Q is the double quote. *)
Definition data_attribute : matcher := fun s =>
  match take_while is_space s with
  | [] => None
  | _ :: _ =>
      match strip_prefix (of_string "data-") (drop_while is_space s) with
      | None => None
      | Some r =>
          match take_while is_data_name r with
          | [] => None
          | _ :: _ =>
              match strip_prefix [61; 34] (drop_while is_data_name r) with
              | None => None
              | Some v => after_char 34 v
              end
          end
      end
  end.

(** [\s+id=Q[a-zA-Z0-9]{20,}Q], where Q is the double quote. *)
Definition session_id : matcher := fun s =>
  match take_while is_space s with
  | [] => None
  | _ :: _ =>
      match strip_prefix (of_string "id=" ++ [34])
                         (drop_while is_space s) with
      | None => None
      | Some r =>
          if (20 <=? List.length (take_while is_alnum r))%nat
          then strip_prefix [34] (drop_while is_alnum r)
          else None
      end
  end.

Definition normalize (html : str) : str :=
  let clean := re_sub (element "script") html in
  let clean := re_sub (element "iframe") clean in
  let clean := re_sub (element "noscript") clean in
  let clean := re_sub (element "style") clean in
  let clean := re_sub comment clean in
  let clean := re_sub data_attribute clean in
  let clean := re_sub session_id clean in
  let clean := collapse_ws false clean in
  strip clean.

(** The code points that stand for half a character of UTF-16. *)
Definition is_surrogate (c : N) : bool := in_range 0xD800 0xDFFF c.

(** [str.encode('utf-8')]: one to four bytes for a code point;
    [None] is the UnicodeEncodeError that a surrogate raises. *)
Definition continuation (c shift : N) : N :=
  N.lor 0x80 (N.land (N.shiftr c shift) 63).

Definition encode_char (c : N) : list N :=
  if c <? 0x80 then [c]
  else if c <? 0x800 then [N.lor 0xC0 (N.shiftr c 6); continuation c 0]
  else if c <? 0x10000
  then [N.lor 0xE0 (N.shiftr c 12); continuation c 6; continuation c 0]
  else [N.lor 0xF0 (N.shiftr c 18); continuation c 12; continuation c 6;
        continuation c 0].

Definition encode (s : str) : option (list N) :=
  if existsb is_surrogate s then None else Some (flat_map encode_char s).

Definition compute_dom_hash (html : str) : option string :=
  option_map Sha256.hexdigest (encode (normalize html)).

End Unicode.

(** ** The data model: dictionaries of the pipeline as records *)

Module Model.

(** [d.get(k, default)]. *)
Definition or_default (A : Type) (d : A) (o : option A) : A :=
  match o with
  | Some x => x
  | None => d
  end.

(** Truth value of a string and of a list. *)
Definition nonempty (s : string) : bool :=
  match s with
  | EmptyString => false
  | String _ _ => true
  end.

Definition some_nonempty (o : option string) : bool :=
  match o with
  | Some s => nonempty s
  | None => false
  end.

Definition nonnil (A : Type) (l : list A) : bool :=
  match l with
  | [] => false
  | _ :: _ => true
  end.

Definition mem (x : string) (l : list string) : bool :=
  existsb (String.eqb x) l.

(** One node of a violation, as [clean_violations] delivers it. *)
Record node := Node { n_html : string; n_target : string }.

(** A violation as [scan_page] returns it (the output of
    [clean_violations]). *)
Record violation := Violation
  { v_id : string;
    v_impact : string;
    v_description : string;
    v_count : nat;
    v_nodes : list node }.

(** A finding: the dictionary that [heuristic_filter], [model_based_filter]
    and [critique_issues] read.  [None] is a key that is absent. *)
Record finding := Finding
  { f_id : option string;
    f_impact : option string;
    f_description : option string;
    f_count : option nat;
    f_nodes : option (list node);
    f_selector : option string;
    f_rule : option string;
    f_wcag_sc : option string;
    f_wcag_title : option string;
    f_gigw_checkpoint : option string;
    f_fix_priority : option string;
    f_specific_nodes : option (list node);
    f_india_priority : option string;
    f_nodes_affected : option Z }.

(** An issue of the report ([AccessibilityIssue] of state.py, with the
    keys the Grouper adds). *)
Record issue := Issue
  { rule : option string;
    category : option string;
    description : option string;
    wcag_sc : option string;
    fix_priority : option string;
    total_occurrences : option Z;
    code_snippets : option (list node);
    html_snippet : option string;
    selector : option string;
    ai_explanation : option string;
    ai_fixed_code : option string }.

Definition set_category (v : string) (i : issue) : issue :=
  Issue (rule i) (Some v) (description i) (wcag_sc i) (fix_priority i)
        (total_occurrences i) (code_snippets i) (html_snippet i)
        (selector i) (ai_explanation i) (ai_fixed_code i).

Definition set_html_snippet (v : string) (i : issue) : issue :=
  Issue (rule i) (category i) (description i) (wcag_sc i) (fix_priority i)
        (total_occurrences i) (code_snippets i) (Some v)
        (selector i) (ai_explanation i) (ai_fixed_code i).

Definition set_selector (v : string) (i : issue) : issue :=
  Issue (rule i) (category i) (description i) (wcag_sc i) (fix_priority i)
        (total_occurrences i) (code_snippets i) (html_snippet i)
        (Some v) (ai_explanation i) (ai_fixed_code i).

Definition set_ai_explanation (v : string) (i : issue) : issue :=
  Issue (rule i) (category i) (description i) (wcag_sc i) (fix_priority i)
        (total_occurrences i) (code_snippets i) (html_snippet i)
        (selector i) (Some v) (ai_fixed_code i).

Definition set_ai_fixed_code (v : string) (i : issue) : issue :=
  Issue (rule i) (category i) (description i) (wcag_sc i) (fix_priority i)
        (total_occurrences i) (code_snippets i) (html_snippet i)
        (selector i) (ai_explanation i) (Some v).

Definition set_total_occurrences (v : Z) (i : issue) : issue :=
  Issue (rule i) (category i) (description i) (wcag_sc i) (fix_priority i)
        (Some v) (code_snippets i) (html_snippet i)
        (selector i) (ai_explanation i) (ai_fixed_code i).

Definition set_code_snippets (v : list node) (i : issue) : issue :=
  Issue (rule i) (category i) (description i) (wcag_sc i) (fix_priority i)
        (total_occurrences i) (Some v) (html_snippet i)
        (selector i) (ai_explanation i) (ai_fixed_code i).

(** The page content that [scan_page] extracts. *)
Record link := Link
  { l_text : string; l_href : string; l_html : string; l_selector : string }.

Record heading := Heading { h_level : string; h_text : string }.

Record element := Element
  { e_text : string; e_html : string; e_tag : string }.

Record dom_content_t := DomContent
  { links : list link;
    headings : list heading;
    interactive : list element }.

Definition empty_dom_content : dom_content_t := DomContent [] [] [].

(** One entry of the keyboard trace. *)
Record focus_entry := Focus
  { fe_tag : option string; fe_text : option string; fe_id : option string }.

(** The result of [scan_page]. *)
Record scan_result := ScanResult
  { sr_error : option string;
    sr_violations : list violation;
    sr_screenshot : option string;
    sr_html : string;
    sr_dom_content : dom_content_t;
    sr_tab_log : list focus_entry }.

(** What [json.loads] returns. A float is the rational it denotes, or
    [None] for NaN and the infinities. *)
#[warnings="-register-all"]
Inductive json :=
| JNull
| JBool (b : bool)
| JInt (n : Z)
| JFloat (x : option Q)
| JStr (s : string)
| JList (items : list json)
| JObj (fields : list (string * json)).

(** The answer of the Tier-2 oracle: [invoke] raises, or the text is not
    JSON, or [json.loads] returns a value. *)
Inductive reply :=
| CallFailed
| NotJson
| Json (v : json).

(** One item of the semantic oracle's [issues] list. *)
Record semantic_item := SemanticItem
  { si_rule : option string;
    si_description : option string;
    si_fix : option string;
    si_selector : option string;
    si_html_snippet : option string }.

(** One item of the visual oracle's [vision_issues] list. *)
Record vision_item := VisionItem
  { vi_description : option string; vi_explanation : option string }.

(** The two prompts of the Fixer, and its parsed answer. *)
Inductive fix_prompt :=
| General (rule desc : string)
| Targeted (rule desc snippet : string).

Record fix_reply := FixReply
  { fr_explanation : option string; fr_fixed_code : option string }.

(** What [urlparse(url).netloc] does: it returns the network location or
    raises. *)
Inductive parsed :=
| Netloc (domain : string)
| Raises (message : string).

(** Everything outside the process.  An oracle answer [None] is any
    failure the caller catches (the call raises, the text is not JSON, the
    value has not the expected shape); the fields of an answer carry
    strings. *)
Record World := MkWorld
  { urlparse_netloc : string -> parsed;
    scan_page : string -> scan_result;
    USE_MODEL_SLM : bool;
    slm_model : list finding -> reply;
    semantic_llm : list link -> list heading -> option (list semantic_item);
    vision_llm : string -> option (list vision_item);
    fixer_llm : nat -> fix_prompt -> option fix_reply }.

(** The store of issue dictionaries, and references into it. *)
Definition loc := nat.

Record store := Store { next : loc; obj : loc -> issue }.

Definition empty_issue : issue :=
  Issue None None None None None None None None None None None.

Definition empty_store : store := Store 0 (fun _ => empty_issue).

Definition write (l : loc) (i : issue) (h : store) : store :=
  Store (next h) (fun l' => if Nat.eqb l' l then i else obj h l').

Definition alloc (i : issue) (h : store) : store * loc :=
  (Store (S (next h)) (fun l' => if Nat.eqb l' (next h) then i else obj h l'),
   next h).

Fixpoint alloc_list (l : list issue) (h : store) : store * list loc :=
  match l with
  | [] => (h, [])
  | i :: rest =>
      let (h1, r) := alloc i h in
      let (h2, rs) := alloc_list rest h1 in
      (h2, r :: rs)
  end.

(** The dictionaries that the node functions take and return (they are
    written against [dict]): the eleven keys of [AuditState] of state.py,
    and [error], which [validate_input] returns and [scanner_node] looks
    for.  [error] is no key of the schema: the graph has no channel for
    it, see [merge].  A list of issues is a list of references. *)
Record AuditState := State
  { url : option string;
    error : option string;
    screenshot_b64 : option (option string);
    dom_hash : option string;
    raw_violations : option (list finding);
    dom_content : option dom_content_t;
    tab_log : option (list focus_entry);
    critiqued_issues : option (list loc);
    vision_issues : option (list loc);
    semantic_issues : option (list loc);
    interaction_issues : option (list loc);
    final_report : option (list loc) }.

Definition no_update : AuditState :=
  State None None None None None None None None None None None None.

Definition over (A : Type) (new old : option A) : option A :=
  match new with
  | Some _ => new
  | None => old
  end.

(** The state after a node returned [u], under [StateGraph(AuditState)]:
    a key of the schema that [u] holds replaces the one of [s], the other
    keys of the schema stay.  [error] is not declared in state.py, so what
    a node returns under it is not kept and the next node finds no such
    key in its state. *)
Definition merge (s u : AuditState) : AuditState :=
  State (over (url u) (url s)) None
        (over (screenshot_b64 u) (screenshot_b64 s))
        (over (dom_hash u) (dom_hash s))
        (over (raw_violations u) (raw_violations s))
        (over (dom_content u) (dom_content s))
        (over (tab_log u) (tab_log s))
        (over (critiqued_issues u) (critiqued_issues s))
        (over (vision_issues u) (vision_issues s))
        (over (semantic_issues u) (semantic_issues s))
        (over (interaction_issues u) (interaction_issues s))
        (over (final_report u) (final_report s)).

End Model.

(** ** guardrails/input_guard.py *)

Module InputGuard.
Import Model.

Definition BLOCKED_DOMAINS : list string :=
  [ "malicious-site.com"; "phishing.org"; "example-blocked.net" ]%string.

(** [re.match(r'^https?://', url)]. *)
Definition has_scheme (url : string) : bool :=
  match Text.strip_prefix (Text.of_string "http://") (Text.of_string url),
        Text.strip_prefix (Text.of_string "https://") (Text.of_string url) with
  | None, None => false
  | _, _ => true
  end.

(** [any(blocked in domain for blocked in BLOCKED_DOMAINS)]. *)
Definition blocked (domain : string) : bool :=
  existsb (fun b => Text.contains b domain) BLOCKED_DOMAINS.

Definition error_update (msg : string) : AuditState :=
  State None (Some msg) None None None None None None None None None None.

Definition url_update (u : string) : AuditState :=
  State (Some u) None None None None None None None None None None None.

Definition validate_input (w : World) (state : AuditState) : AuditState :=
  let url := or_default EmptyString (url state) in
  if negb (nonempty url) then error_update "URL is missing"
  else if negb (has_scheme url) then
    error_update "Invalid URL format. Must start with http:// or https://"
  else
    match urlparse_netloc w url with
    | Netloc domain =>
        if blocked domain
        then error_update ("Domain " ++ domain ++ " is in the blocklist.")
        else url_update url
    | Raises e => error_update ("URL parsing failed: " ++ e)
    end.

(** A model of [urlparse(url).netloc] on a URL that starts with the http
    or https scheme: the network location runs up to the first slash,
    question mark or hash, and a bracket without its partner raises, as in
    every CPython 3.  Later releases also delete tabs and line ends and
    check what stands between the brackets; the properties of
    [validate_input] are proved for every parser, this one serves the
    examples. *)
Definition is_delim (c : ascii) : bool :=
  Ascii.eqb c "/" || Ascii.eqb c "?" || Ascii.eqb c "#".

Definition cpython_netloc (url : string) : parsed :=
  let rest :=
    match Text.strip_prefix (Text.of_string "http://") (Text.of_string url),
          Text.strip_prefix (Text.of_string "https://") (Text.of_string url)
    with
    | Some r, _ => r
    | None, Some r => r
    | None, None => []
    end in
  let netloc := Text.take_while (fun c => negb (is_delim c)) rest in
  let opening := existsb (Ascii.eqb "[") netloc in
  let closing := existsb (Ascii.eqb "]") netloc in
  if (opening && negb closing) || (closing && negb opening)
  then Raises "Invalid IPv6 URL"
  else Netloc (Text.to_string netloc).

End InputGuard.

(** ** tools/wcag_mapper.py *)

Module WcagMapper.
Import Model.
Local Open Scope string_scope.

Record rule_definition := RuleDef
  { sc : string; level : string; since : string; title : string;
    india_priority : string }.

Definition WCAG_RULES : list (string * rule_definition) :=
  [ ("accesskeys", RuleDef "2.1.4" "A" "2.1" "Character Key Shortcuts" "LOW");
    ("aria-allowed-attr", RuleDef "4.1.2" "A" "2.1" "Name, Role, Value" "HIGH");
    ("aria-hidden-body", RuleDef "4.1.2" "A" "2.1" "Name, Role, Value" "HIGH");
    ("aria-hidden-focus", RuleDef "4.1.2" "A" "2.1" "Name, Role, Value" "HIGH");
    ("aria-input-field-name",
      RuleDef "4.1.2" "A" "2.1" "Name, Role, Value" "HIGH");
    ("aria-required-attr", RuleDef "4.1.2" "A" "2.1" "Name, Role, Value" "HIGH");
    ("aria-required-children",
      RuleDef "1.3.1" "A" "2.1" "Info and Relationships" "MEDIUM");
    ("aria-roles", RuleDef "4.1.2" "A" "2.1" "Name, Role, Value" "HIGH");
    ("aria-valid-attr-value",
      RuleDef "4.1.2" "A" "2.1" "Name, Role, Value" "HIGH");
    ("aria-valid-attr", RuleDef "4.1.2" "A" "2.1" "Name, Role, Value" "HIGH");
    ("button-name", RuleDef "4.1.2" "A" "2.1" "Name, Role, Value" "CRITICAL");
    ("bypass", RuleDef "2.4.1" "A" "2.1" "Bypass Blocks" "HIGH");
    ("color-contrast",
      RuleDef "1.4.3" "AA" "2.1" "Contrast (Minimum)" "CRITICAL");
    ("document-title", RuleDef "2.4.2" "A" "2.1" "Page Titled" "HIGH");
    ("frame-title", RuleDef "4.1.2" "A" "2.1" "Name, Role, Value" "MEDIUM");
    ("html-has-lang", RuleDef "3.1.1" "A" "2.1" "Language of Page" "HIGH");
    ("html-lang-valid", RuleDef "3.1.1" "A" "2.1" "Language of Page" "HIGH");
    ("image-alt", RuleDef "1.1.1" "A" "2.1" "Non-text Content" "CRITICAL");
    ("input-image-alt",
      RuleDef "1.1.1" "A" "2.1" "Non-text Content" "CRITICAL");
    ("label", RuleDef "3.3.2" "A" "2.1" "Labels or Instructions" "CRITICAL");
    ("link-name",
      RuleDef "2.4.4" "A" "2.1" "Link Purpose (In Context)" "HIGH");
    ("meta-viewport", RuleDef "1.4.4" "AA" "2.1" "Resize Text" "MEDIUM");
    ("tabindex", RuleDef "2.1.1" "A" "2.1" "Keyboard" "MEDIUM");
    ("select-name", RuleDef "4.1.2" "A" "2.1" "Name, Role, Value" "CRITICAL");
    ("focus-not-obscured",
      RuleDef "2.4.11" "AA" "2.2" "Focus Not Obscured" "MEDIUM");
    ("focus-appearance",
      RuleDef "2.4.11" "AA" "2.2" "Focus Appearance" "MEDIUM");
    ("target-size",
      RuleDef "2.5.8" "AA" "2.2" "Target Size (Minimum)" "MEDIUM");
    ("dragging-movements",
      RuleDef "2.5.7" "A" "2.2" "Dragging Movements" "LOW");
    ("consistent-help", RuleDef "3.2.6" "A" "2.2" "Consistent Help" "LOW");
    ("redundant-entry", RuleDef "3.3.7" "A" "2.2" "Redundant Entry" "LOW");
    ("accessible-authentication-minimum",
      RuleDef "3.3.8" "A" "2.2" "Accessible Authentication" "MEDIUM");
    ("heading-order", RuleDef "G130" "Best" "2.1" "Heading Order" "MEDIUM");
    ("landmark-one-main",
      RuleDef "Best" "Best" "2.1" "One Main Landmark" "MEDIUM");
    ("page-has-heading-one",
      RuleDef "Best" "Best" "2.1" "Page should have <h1>" "HIGH");
    ("region", RuleDef "Best" "Best" "2.1" "Landmark Regions" "MEDIUM") ].

Definition GIGW_MAPPING : list (string * string) :=
  [ ("1.1.1", "9.1.1 (Non-text Content)");
    ("1.3.1", "9.1.3 (Info and Relationships)");
    ("1.4.3", "9.1.4 (Contrast Minimum)");
    ("2.1.1", "9.2.1 (Keyboard)");
    ("2.4.1", "9.2.4 (Bypass Blocks)");
    ("2.4.2", "9.2.4 (Page Titled)");
    ("2.4.4", "9.2.4 (Link Purpose)");
    ("3.1.1", "9.3.1 (Language of Page)");
    ("3.3.2", "9.3.3 (Labels or Instructions)");
    ("4.1.2", "9.4.1 (Name, Role, Value)") ].

Fixpoint lookup (A : Type) (k : string) (d : list (string * A)) : option A :=
  match d with
  | [] => None
  | (k', v) :: rest => if String.eqb k k' then Some v else lookup k rest
  end.

Definition enrich_with_wcag (violation : violation) : finding :=
  let rule_id := v_id violation in
  let data :=
    or_default (RuleDef "Unknown" "?" "2.1" rule_id "LOW")
               (lookup rule_id WCAG_RULES) in
  let india := india_priority data in
  let specific_nodes := v_nodes violation in
  let wcag := sc data in
  let gigw_checkpoint :=
    or_default "N/A - Best Practice" (lookup wcag GIGW_MAPPING) in
  Finding (Some (v_id violation)) (Some (v_impact violation))
          (Some (v_description violation)) (Some (v_count violation))
          (Some (v_nodes violation)) None
          (Some rule_id) (Some wcag) (Some (title data))
          (Some gigw_checkpoint)
          (Some (if String.eqb india "CRITICAL" then "HIGH" else "MEDIUM"))
          (Some specific_nodes) (Some india) None.

End WcagMapper.

(** ** tools/critic.py *)

Module Critic.
Import Model.
Local Open Scope string_scope.

(** The dictionary [grouped]: rule identifiers in the order of their first
    finding, each with its aggregate record. *)
Definition groups := list (string * issue).

Fixpoint has_key (k : string) (g : groups) : bool :=
  match g with
  | [] => false
  | (k', _) :: rest => String.eqb k k' || has_key k rest
  end.

Fixpoint update (k : string) (f : issue -> issue) (g : groups) : groups :=
  match g with
  | [] => []
  | (k', v) :: rest =>
      if String.eqb k k' then (k', f v) :: rest
      else (k', v) :: update k f rest
  end.

Definition new_group (rule_id : string) (found : finding) : issue :=
  Issue (Some rule_id)
        None
        (Some (or_default EmptyString (f_description found)))
        (Some (or_default "Unknown" (f_wcag_sc found)))
        (Some (or_default "LOW" (f_fix_priority found)))
        (Some 0%Z)
        (Some [])
        None None None None.

(** The two statements after the group exists: add to the counter, extend
    the snippets when fewer than five are held. *)
Definition account (found : finding) (g : issue) : issue :=
  let g1 :=
    set_total_occurrences
      (or_default 0%Z (total_occurrences g)
       + or_default 1%Z (f_nodes_affected found))%Z g in
  let new_nodes := or_default [] (f_specific_nodes found) in
  let current_snippets := or_default [] (code_snippets g1) in
  if (List.length current_snippets <? 5)%nat
  then set_code_snippets (current_snippets ++ new_nodes)%list g1
  else g1.

Definition step (grouped : groups) (found : finding) : groups :=
  let rule_id := or_default "unknown" (f_rule found) in
  let grouped1 :=
    if has_key rule_id grouped then grouped
    else (grouped ++ [(rule_id, new_group rule_id found)])%list in
  update rule_id (account found) grouped1.

Definition critique_issues (issues : list finding) : list issue :=
  map snd (fold_left step issues []).

End Critic.

(** ** slm/fast_critic.py *)

Module FastCritic.
Import Model.
Local Open Scope string_scope.

Fixpoint heuristic_loop (seen_selectors : list string)
         (issues : list finding) : list finding :=
  match issues with
  | [] => []
  | found :: rest =>
      let rule := or_default EmptyString (f_id found) in
      let impact := or_default EmptyString (f_impact found) in
      let selector := or_default EmptyString (f_selector found) in
      if String.eqb rule "color-contrast" && String.eqb impact "minor"
      then heuristic_loop seen_selectors rest
      else if String.eqb rule "region"
      then heuristic_loop seen_selectors rest
      else if nonempty selector && mem selector seen_selectors
      then heuristic_loop seen_selectors rest
      else if negb (nonnil (or_default [] (f_nodes found)))
              && negb (nonnil (or_default [] (f_specific_nodes found)))
      then heuristic_loop seen_selectors rest
      else found :: heuristic_loop
                      (if nonempty selector then selector :: seen_selectors
                       else seen_selectors) rest
  end.

Definition heuristic_filter (issues : list finding) : list finding :=
  heuristic_loop [] issues.

(** [set(v)]: the elements of a list, the characters of a string or the
    keys of an object; [None] when Python raises TypeError. *)
Definition hashable (v : json) : bool :=
  match v with
  | JList _ | JObj _ => false
  | _ => true
  end.

Definition to_set (v : json) : option (list json) :=
  match v with
  | JList items => if forallb hashable items then Some items else None
  | JStr s =>
      Some (map (fun c => JStr (String c EmptyString)) (Text.of_string s))
  | JObj fields => Some (map (fun kv => JStr (fst kv)) fields)
  | JNull | JBool _ | JInt _ | JFloat _ => None
  end.

(** Whether the integer [i] equals the value [v] as Python compares them. *)
Definition equals_int (i : Z) (v : json) : bool :=
  match v with
  | JInt n => Z.eqb i n
  | JBool b => Z.eqb i (if b then 1 else 0)
  | JFloat (Some x) => Qeq_bool (inject_Z i) x
  | _ => false
  end.

Definition in_set (i : Z) (keep : list json) : bool :=
  existsb (equals_int i) keep.

(** [[issue for i, issue in enumerate(issues) if i in keep_indices]],
    counting from [i]. *)
Fixpoint keep_from (A : Type) (keep : list json) (i : nat) (issues : list A)
  : list A :=
  match issues with
  | [] => []
  | found :: rest =>
      if in_set (Z.of_nat i) keep then found :: keep_from keep (S i) rest
      else keep_from keep (S i) rest
  end.

Definition model_based_filter (w : World) (issues : list finding)
  : list finding :=
  if negb (USE_MODEL_SLM w) || Nat.eqb (List.length issues) 0 then issues
  else
    match slm_model w issues with
    | CallFailed => issues
    | NotJson => issues
    | Json (JObj fields) =>
        match to_set (or_default (JList [])
                        (WcagMapper.lookup "keep_indices" fields)) with
        | Some keep_indices => keep_from keep_indices 0 issues
        | None => issues
        end
    | Json _ => issues
    end.

Definition fast_critique (w : World) (issues : list finding) : list finding :=
  let issues := heuristic_filter issues in
  if USE_MODEL_SLM w && (0 <? List.length issues)%nat
  then model_based_filter w issues
  else issues.

Definition fast_critique_sync (issues : list finding) : list finding :=
  heuristic_filter issues.

End FastCritic.

(** ** graph/nodes.py *)

Module Nodes.
Import Model.
Local Open Scope string_scope.

(** A node reads the state and returns a partial state; it may allocate
    and mutate issue dictionaries.  [None] is an exception that escapes the
    node. *)
Definition node := store -> AuditState -> option (store * AuditState).

(** *** Node 0: input guard *)

Definition input_guard_node (w : World) : node := fun h state =>
  Some (h, InputGuard.validate_input w state).

(** *** Node 1: scanner

    [state[url]] raises KeyError when the key is absent; the import of
    [compute_dom_hash] inside the node is taken to succeed. *)

Definition scanner_node (w : World) : node := fun h state =>
  match error state with
  | Some e => Some (h, InputGuard.error_update e)
  | None =>
      match url state with
      | None => None
      | Some u =>
          let result := scan_page w u in
          match sr_error result with
          | Some _ =>
              Some (h, State None None (Some None) (Some EmptyString)
                             (Some []) (Some empty_dom_content) (Some [])
                             None None None None None)
          | None =>
              let enriched :=
                map WcagMapper.enrich_with_wcag (sr_violations result) in
              let html := sr_html result in
              let dom_hash :=
                if nonempty html then DomCache.compute_dom_hash html
                else EmptyString in
              Some (h, State None None (Some (sr_screenshot result))
                             (Some dom_hash) (Some enriched)
                             (Some (sr_dom_content result))
                             (Some (sr_tab_log result))
                             None None None None None)
          end
      end
  end.

(** *** Node 2: critic *)

Definition expose_first (c : issue) : issue :=
  let c := set_category "syntax" c in
  match or_default [] (code_snippets c) with
  | [] => c
  | first :: _ =>
      let c :=
        set_html_snippet
          (if nonempty (n_html first) then n_html first
           else or_default EmptyString (html_snippet c)) c in
      set_selector
        (if nonempty (n_target first) then n_target first
         else or_default EmptyString (selector c)) c
  end.

Definition critic_node (w : World) : node := fun h state =>
  let issues := or_default [] (raw_violations state) in
  let issues := FastCritic.fast_critique w issues in
  let critiqued := map expose_first (Critic.critique_issues issues) in
  let (h', refs) := alloc_list critiqued h in
  Some (h', State None None None None None None None
                  (Some refs) None None None None).

(** *** Node 3: semantic analyzer *)

Definition semantic_issue (item : semantic_item) : issue :=
  {| rule := Some (or_default "semantic-issue" (si_rule item));
     category := Some "semantic";
     description :=
       Some (or_default "Semantic issue found." (si_description item));
     wcag_sc := Some "2.4.4";
     fix_priority := Some "MEDIUM";
     total_occurrences := None;
     code_snippets := None;
     html_snippet :=
       Some (or_default "Semantic Analysis" (si_html_snippet item));
     selector := Some (or_default "N/A" (si_selector item));
     ai_explanation := si_description item;
     ai_fixed_code :=
       Some (or_default "Update the text or structure." (si_fix item)) |}.

Definition semantic_issues_of (w : World) (state : AuditState) : list issue :=
  let content := or_default empty_dom_content (dom_content state) in
  match links content, headings content with
  | [], [] => []
  | _, _ =>
      match semantic_llm w (firstn 20 (links content))
                         (firstn 20 (headings content)) with
      | Some items => map semantic_issue items
      | None => []
      end
  end.

Definition semantic_node (w : World) : node := fun h state =>
  let (h', refs) := alloc_list (semantic_issues_of w state) h in
  Some (h', State None None None None None None None
                  None None (Some refs) None None).

(** *** Node 4: interaction agent *)

Definition tag_is (t : string) (item : focus_entry) : bool :=
  match fe_tag item with
  | Some t' => String.eqb t' t
  | None => false
  end.

Definition non_interactive_tags : list string :=
  [ "DIV"; "SPAN"; "P"; "H1"; "H2"; "H3"; "H4"; "H5"; "H6" ].

Definition non_interactive (item : focus_entry) : bool :=
  match fe_tag item with
  | Some t => mem t non_interactive_tags
  | None => false
  end.

Definition focus_lost_issue (times : nat) : issue :=
  {| rule := Some "keyboard-focus-lost";
     category := Some "interaction";
     description :=
       Some ("Focus lost to <body> tag " ++ Text.decimal times
             ++ " times during keyboard navigation. This indicates a focus trap or missing focus management.");
     wcag_sc := Some "2.4.7";
     fix_priority := Some "CRITICAL";
     total_occurrences := None;
     code_snippets := None;
     html_snippet := Some "Focus management issue detected";
     selector := None;
     ai_explanation :=
       Some "When users press Tab, focus should move to the next interactive element. If focus jumps to <body>, users lose track of where they are on the page.";
     ai_fixed_code :=
       Some "Ensure all interactive elements are keyboard accessible. Add tabindex='0' to custom interactive elements or use semantic HTML like <button> instead of <div>." |}.

Definition non_interactive_issue (count : nat) (first_tag : string) : issue :=
  {| rule := Some "non-interactive-tabindex";
     category := Some "interaction";
     description :=
       Some ("Found " ++ Text.decimal count
             ++ " non-interactive elements with keyboard focus, which can confuse keyboard users.");
     wcag_sc := Some "2.4.3";
     fix_priority := Some "MEDIUM";
     total_occurrences := None;
     code_snippets := None;
     html_snippet := Some ("<" ++ first_tag ++ " tabindex='...'>");
     selector := None;
     ai_explanation :=
       Some "Non-interactive elements (div, span, p) should not receive keyboard focus unless they have an interactive role.";
     ai_fixed_code :=
       Some "Remove tabindex from non-interactive elements or add appropriate ARIA roles like role='button' if they are meant to be interactive." |}.

Definition limited_access_issue (count : nat) : issue :=
  {| rule := Some "limited-keyboard-access";
     category := Some "interaction";
     description :=
       Some ("Only " ++ Text.decimal count
             ++ " elements are keyboard accessible. This page may have insufficient keyboard navigation.");
     wcag_sc := Some "2.1.1";
     fix_priority := Some "HIGH";
     total_occurrences := None;
     code_snippets := None;
     html_snippet := Some "Page-wide keyboard accessibility issue";
     selector := None;
     ai_explanation :=
       Some "A typical page should have many focusable elements (links, buttons, form inputs). Very few focusable elements suggests missing keyboard access.";
     ai_fixed_code :=
       Some "Ensure all interactive elements (buttons, links, form controls) are keyboard accessible. Avoid using <div> or <span> for interactive elements without proper tabindex and ARIA roles." |}.

Definition duplicate_id_issue (elem_id : string) : issue :=
  {| rule := Some "duplicate-id-focusable";
     category := Some "interaction";
     description :=
       Some ("Duplicate ID '" ++ elem_id
             ++ "' found on focusable elements. This breaks assistive technology.");
     wcag_sc := Some "4.1.1";
     fix_priority := Some "CRITICAL";
     total_occurrences := None;
     code_snippets := None;
     html_snippet := Some ("<... id='" ++ elem_id ++ "'>");
     selector := None;
     ai_explanation :=
       Some "IDs must be unique on a page. Duplicate IDs on focusable elements confuse screen readers and keyboard navigation.";
     ai_fixed_code :=
       Some ("Change one of the elements to use a unique ID, e.g., id='"
             ++ elem_id ++ "-2'") |}.

(** The loop over the trace with [ids_seen]; it stops at the first
    identifier seen before. *)
Fixpoint first_duplicate (ids_seen : list string) (log : list focus_entry)
  : option string :=
  match log with
  | [] => None
  | item :: rest =>
      match fe_id item with
      | Some elem_id =>
          if nonempty elem_id then
            if mem elem_id ids_seen then Some elem_id
            else first_duplicate (elem_id :: ids_seen) rest
          else first_duplicate ids_seen rest
      | None => first_duplicate ids_seen rest
      end
  end.

Definition interaction_issues_of (log : list focus_entry) : list issue :=
  match log with
  | [] => []
  | _ :: _ =>
      let body_focus := filter (tag_is "BODY") log in
      let non_interactive_focused := filter non_interactive log in
      ((if (1 <? List.length body_focus)%nat
        then [focus_lost_issue (List.length body_focus)] else [])
       ++ (match non_interactive_focused with
           | [] => []
           | first :: _ =>
               [non_interactive_issue
                  (List.length non_interactive_focused)
                  (or_default "None" (fe_tag first))]
           end)
       ++ (if (List.length log <? 5)%nat
           then [limited_access_issue (List.length log)] else [])
       ++ (match first_duplicate [] log with
           | Some elem_id => [duplicate_id_issue elem_id]
           | None => []
           end))%list
  end.

Definition interaction_node : node := fun h state =>
  let log := or_default [] (tab_log state) in
  let (h', refs) := alloc_list (interaction_issues_of log) h in
  Some (h', State None None None None None None None
                  None None None (Some refs) None).

(** *** Node 5: vision analyzer *)

Definition vision_issue (i : vision_item) : issue :=
  {| rule := Some "visual-ai-scan";
     category := Some "visual";
     description := vi_description i;
     wcag_sc := Some "1.4.3";
     fix_priority := Some "HIGH";
     total_occurrences := None;
     code_snippets := None;
     html_snippet := Some "Visual Detection";
     selector := None;
     ai_explanation := vi_explanation i;
     ai_fixed_code := Some "Check CSS contrast/spacing." |}.

Definition vision_issues_of (w : World) (state : AuditState) : list issue :=
  match screenshot_b64 state with
  | Some (Some shot) =>
      if nonempty shot then
        match vision_llm w shot with
        | Some items => map vision_issue items
        | None => []
        end
      else []
  | _ => []
  end.

Definition vision_analyzer_node (w : World) : node := fun h state =>
  let (h', refs) := alloc_list (vision_issues_of w state) h in
  Some (h', State None None None None None None None
                  None (Some refs) None None None).

(** *** Node 6: fixer *)

(** [issue.get(ai_fixed_code) and issue.get(ai_fixed_code) != PLACEHOLDER]. *)
Definition already_fixed (i : issue) : bool :=
  match ai_fixed_code i with
  | Some code => nonempty code && negb (String.eqb code "<!-- Fix -->")
  | None => false
  end.

(** [re.search(r"'(.*?)'", desc)], group 1: the text between the first
    single quote and the next one on the same line. *)
Fixpoint until_quote (s : Text.text) : option Text.text :=
  match s with
  | [] => None
  | c :: t =>
      if Ascii.eqb c "'" then Some []
      else if Ascii.eqb c "010" then None
      else option_map (cons c) (until_quote t)
  end.

Fixpoint quoted (s : Text.text) : option Text.text :=
  match s with
  | [] => None
  | c :: t =>
      if Ascii.eqb c "'" then
        match until_quote t with
        | Some g => Some g
        | None => quoted t
        end
      else quoted t
  end.

Definition lower_text (s : string) : Text.text :=
  map Text.py_lower (Text.of_string s).

(** The first captured element whose text contains the quoted text. *)
Definition find_element (search_text : string) (els : list element)
  : option element :=
  find (fun el => Text.contains_by Ascii.eqb (lower_text search_text)
                                   (lower_text (e_text el))) els.

(** The smart lookup for visual issues: the snippet to use, and the issue
    with its snippet and selector updated when an element matched. *)
Definition smart_lookup (els : list element) (i : issue) : string * issue :=
  let desc := or_default EmptyString (description i) in
  let snippet := or_default EmptyString (html_snippet i) in
  let category := or_default EmptyString (category i) in
  if String.eqb category "visual"
     && (negb (nonempty snippet) || Text.contains "Visual Detection" snippet)
  then
    let search_text :=
      match quoted (Text.of_string desc) with
      | Some g => Text.to_string g
      | None => EmptyString
      end in
    if nonempty search_text then
      match find_element search_text els with
      | Some el =>
          (e_html el,
           set_selector ("<" ++ e_tag el ++ "> containing '"
                         ++ search_text ++ "'")
                        (set_html_snippet (e_html el) i))
      | None => (snippet, i)
      end
    else (snippet, i)
  else (snippet, i).

Definition has_code (snippet : string) : bool :=
  nonempty snippet
  && negb (String.eqb snippet "Code not available")
  && negb (String.eqb snippet "Visual Detection").

Definition user_prompt (i : issue) (snippet : string) : fix_prompt :=
  let rule := or_default "unknown" (rule i) in
  let desc := or_default EmptyString (description i) in
  if has_code snippet then Targeted rule desc snippet
  else General rule desc.

(** What the body of the loop does to an issue that is not fixed yet;
    [calls] counts the earlier calls of the oracle. *)
Definition fix_issue (w : World) (els : list element) (calls : nat)
           (i : issue) : issue :=
  let (snippet, i1) := smart_lookup els i in
  match fixer_llm w calls (user_prompt i1 snippet) with
  | Some ai_data =>
      let i2 :=
        set_ai_explanation
          (or_default "AI Explanation" (fr_explanation ai_data)) i1 in
      let raw_fix :=
        or_default "<!-- Check CSS -->" (fr_fixed_code ai_data) in
      set_ai_fixed_code (OutputGuard.validate_fix raw_fix) i2
  | None =>
      set_ai_fixed_code "<!-- Manual Review -->"
        (set_ai_explanation "Manual review recommended." i1)
  end.

Fixpoint fixer_loop (w : World) (els : list element) (all_issues : list loc)
         (calls : nat) (h : store) (final_report : list loc)
  : store * list loc :=
  match all_issues with
  | [] => (h, final_report)
  | l :: rest =>
      let i := obj h l in
      if already_fixed i
      then fixer_loop w els rest calls h (final_report ++ [l])%list
      else fixer_loop w els rest (S calls)
                      (write l (fix_issue w els calls i) h)
                      (final_report ++ [l])%list
  end.

Definition all_issues_of (state : AuditState) : list loc :=
  (or_default [] (critiqued_issues state)
   ++ or_default [] (vision_issues state)
   ++ or_default [] (semantic_issues state)
   ++ or_default [] (interaction_issues state))%list.

Definition fixer_node (w : World) : node := fun h state =>
  let content := or_default empty_dom_content (dom_content state) in
  let interactive_elements := interactive content in
  let (h', final_report) :=
    fixer_loop w interactive_elements (all_issues_of state) 0 h [] in
  Some (h', State None None None None None None None
                  None None None None (Some final_report)).

End Nodes.

(** ** backend/graph/workflow.py and the call in main.py *)

Module Workflow.
Import Model Nodes.

(** One edge of the graph: run the node on the current state and merge
    what it returns. *)
Definition and_then (n : node) (r : option (store * AuditState))
  : option (store * AuditState) :=
  match r with
  | None => None
  | Some (h, s) =>
      match n h s with
      | None => None
      | Some (h', u) => Some (h', merge s u)
      end
  end.

(** Input Guard -> Scanner -> Critic -> Semantic -> Interaction -> Vision
    -> Fixer -> END. *)
Definition audit_graph (w : World) (initial_state : AuditState)
  : option (store * AuditState) :=
  and_then (fixer_node w)
    (and_then (vision_analyzer_node w)
       (and_then interaction_node
          (and_then (semantic_node w)
             (and_then (critic_node w)
                (and_then (scanner_node w)
                   (and_then (input_guard_node w)
                      (Some (empty_store, initial_state)))))))).

(** [initial_state = {url: request.url}] of main.py. *)
Definition initial_state (request_url : string) : AuditState :=
  State (Some request_url) None None None None None None
        None None None None None.

(** The issues a list of references denotes. *)
Definition deref (h : store) (refs : option (list loc)) : list issue :=
  map (obj h) (or_default [] refs).

(** [report = final_state.get(final_report, [])] of main.py. *)
Definition report_of (r : option (store * AuditState)) : list issue :=
  match r with
  | Some (h, s) => deref h (final_report s)
  | None => []
  end.

End Workflow.

(** ** Predicates of the statements, and concrete worlds *)

Module Props.
Import Model.
Local Open Scope string_scope.

(** A lowercase hexadecimal digit. *)
Definition is_lower_hex (c : ascii) : bool :=
  Text.is_digit c || Text.in_range 97 102 c.

(** Whether a pattern matches somewhere in a text. *)
Fixpoint matches_somewhere (m : Text.matcher) (s : Text.text) : bool :=
  match m s with
  | Some _ => true
  | None => match s with
            | [] => false
            | _ :: t => matches_somewhere m t
            end
  end.

(** The three things the sanitizer looks for. *)
Definition has_script_block (s : string) : bool :=
  matches_somewhere OutputGuard.script_block (Text.of_string s).

Definition has_javascript_scheme (s : string) : bool :=
  matches_somewhere OutputGuard.javascript_scheme (Text.of_string s).

Definition has_event_handler (s : string) : bool :=
  matches_somewhere (OutputGuard.event_handler Text.dq) (Text.of_string s)
  || matches_somewhere (OutputGuard.event_handler "'") (Text.of_string s).

(** A world in which the page has nothing to report and every oracle call
    fails. *)
Definition quiet_world : World :=
  MkWorld InputGuard.cpython_netloc
          (fun _ => ScanResult None [] None EmptyString empty_dom_content [])
          false
          (fun _ => CallFailed)
          (fun _ _ => None)
          (fun _ => None)
          (fun _ _ => None).

(** A world in which Tier 2 is enabled and the oracle's answer is [r]. *)
Definition slm_world (r : reply) : World :=
  MkWorld InputGuard.cpython_netloc
          (fun _ => ScanResult None [] None EmptyString empty_dom_content [])
          true
          (fun _ => r)
          (fun _ _ => None)
          (fun _ => None)
          (fun _ _ => None).

(** A world in which the page has one link and the semantic oracle
    proposes the fix [payload] for it. *)
Definition semantic_world (payload : string) : World :=
  MkWorld InputGuard.cpython_netloc
          (fun _ => ScanResult None [] None "<a href='/x'>Click here</a>"
                      (DomContent
                         [Link "Click here" "/x" "<a href='/x'>Click here</a>"
                               "a"] [] [])
                      [])
          false
          (fun _ => CallFailed)
          (fun _ _ =>
             Some [SemanticItem (Some "semantic-link")
                                (Some "Vague link text")
                                (Some payload) (Some "a")
                                (Some "<a href='/x'>Click here</a>")])
          (fun _ => None)
          (fun _ _ => None).

(** A world in which the page has an image without alternative text and
    three focusable elements, and every oracle call fails. *)
Definition page_world : World :=
  MkWorld InputGuard.cpython_netloc
          (fun _ =>
             ScanResult None
               [ Violation "image-alt" "critical"
                           "Images must have alternate text" 1
                           [ Node "<img src='a.png'>" "img" ] ]
               None
               "<html><body><img src='a.png'><a href='/'>Home</a></body></html>"
               empty_dom_content
               [ Focus (Some "A") (Some "Home") (Some EmptyString);
                 Focus (Some "BUTTON") (Some "Search") (Some "search");
                 Focus (Some "INPUT") (Some EmptyString) (Some "q") ])
          false
          (fun _ => CallFailed)
          (fun _ _ => None)
          (fun _ => None)
          (fun _ _ => None).

(** A finding of rule [r] with [n] evidence nodes, as [enrich_with_wcag]
    makes it. *)
Definition finding_of (r : string) (n : nat) : finding :=
  WcagMapper.enrich_with_wcag
    (Violation r "serious" "Images must have alternate text" n
               (repeat (Node "<img src='a.png'>" "img") n)).

(** The identifiers of the trace: those that are present and not empty. *)
Definition element_ids (log : list focus_entry) : list string :=
  flat_map (fun item => match fe_id item with
                        | Some i => if nonempty i then [i] else []
                        | None => []
                        end) log.

(** How often the body element holds the focus. *)
Definition body_focused (log : list focus_entry) : nat :=
  List.length (filter (Nodes.tag_is "BODY") log).

(** The rule identifier under which the Grouper files a finding, and the
    affected-node count it adds. *)
Definition rule_of (f : finding) : string := or_default "unknown" (f_rule f).

Definition affected (f : finding) : Z := or_default 1%Z (f_nodes_affected f).

(** The sum of the affected-node counts of the findings of rule [k]. *)
Fixpoint occurrences (k : string) (fs : list finding) : Z :=
  match fs with
  | [] => 0%Z
  | f :: rest =>
      ((if String.eqb (rule_of f) k then affected f else 0)
       + occurrences k rest)%Z
  end.

(** [subseq l1 l2]: [l1] is [l2] with some elements left out. *)
Inductive subseq (A : Type) : list A -> list A -> Prop :=
| subseq_nil : subseq [] []
| subseq_skip x l1 l2 : subseq l1 l2 -> subseq l1 (x :: l2)
| subseq_keep x l1 l2 : subseq l1 l2 -> subseq (x :: l1) (x :: l2).


(** A script element with the attributes [attrs] and the content [body],
    and what it takes for it to end where it was meant to. *)
Definition script_element (attrs body : Text.text) : Text.text :=
  (Text.of_string "<script" ++ attrs ++ ">"%char :: body
   ++ Text.of_string "</script>")%list.

Definition opens_script (s : Text.text) : bool :=
  Text.contains_by Text.eqb_ci (Text.of_string "<script") s.

Definition closes_script (s : Text.text) : bool :=
  Text.contains_by Text.eqb_ci (Text.of_string "</script>") s.

(** The handler attribute as the specification words it, without the
    white space in front: [on\w+=Q[^Q]*Q] under IGNORECASE. *)
Definition handler_attribute (quote : ascii) : Text.matcher := fun s =>
  match Text.strip_prefix_ci (Text.of_string "on") s with
  | None => None
  | Some r1 =>
      match Text.take_while Text.is_word r1 with
      | [] => None
      | _ :: _ =>
          match Text.strip_prefix [ "="%char; quote ]
                  (Text.drop_while Text.is_word r1) with
          | None => None
          | Some r2 => Text.after_char quote r2
          end
      end
  end.

Definition has_handler_attribute (s : string) : bool :=
  matches_somewhere (handler_attribute Text.dq) (Text.of_string s)
  || matches_somewhere (handler_attribute "'") (Text.of_string s).

(** A matcher is productive when every match consumes a character. *)
Definition productive (m : Text.matcher) : Prop :=
  forall s r, m s = Some r -> List.length r < List.length s.

(** What the loop of [critique_issues] maintains: the keys are pairwise
    different, a group carries its key as rule and the sum of the counts
    of the findings of that rule seen so far, and a rule without a group
    has had no count. *)
Definition grouped_so_far (seen : list finding) (g : Critic.groups) : Prop :=
  NoDup (map fst g)
  /\ forall k,
       match WcagMapper.lookup k g with
       | Some v => rule v = Some k
                   /\ total_occurrences v = Some (occurrences k seen)
       | None => occurrences k seen = 0%Z
       end.

(** The fields by which an issue is recognised: the Fixer writes none of
    them. *)
Definition same_identity (i j : issue) : Prop :=
  rule i = rule j /\ category i = category j
  /\ description i = description j /\ wcag_sc i = wcag_sc j
  /\ fix_priority i = fix_priority j
  /\ total_occurrences i = total_occurrences j
  /\ code_snippets i = code_snippets j.


End Props.

(** ** tools/dom_scanner.py: [clean_violations] *)

Module DomScanner.
Import Model.
Local Open Scope string_scope.

(** A node and a violation of the axe report.  Both are dictionaries, so
    [getattr] finds none of the keys and the value is what [.get] gives:
    [None] when the key is absent. *)
Record axe_node := AxeNode
  { an_html : option string; an_target : option (list string) }.

Record axe_violation := AxeViolation
  { av_id : option string;
    av_help : option string;
    av_impact : option string;
    av_nodes : option (list axe_node) }.

(** The dictionary appended for one violation. *)
Record simplified := Simplified
  { s_id : option string;
    s_impact : option string;
    s_description : option string;
    s_count : nat;
    s_nodes : list node }.

Definition newline : string := String "010" EmptyString.

(** [not html or html.strip() == EmptyString]. *)
Definition blank (html : option string) : bool :=
  match html with
  | None => true
  | Some h =>
      negb (nonempty h) || negb (nonnil (Text.strip (Text.of_string h)))
  end.

(** The text that stands in for markup axe did not deliver. *)
Definition placeholder (selector : string) : string :=
  if Text.contains "html" selector
  then "<!-- Root Element -->" ++ newline ++ "<html>"
  else if Text.contains "body" selector
  then "<!-- Body Element -->" ++ newline ++ "<body>"
  else "<!-- Element at selector: " ++ selector ++ " -->".

Definition clean_node (raw : axe_node) : node :=
  let selector :=
    match or_default [] (an_target raw) with
    | first :: _ => first
    | [] => "Unknown Selector"
    end in
  let html :=
    if blank (an_html raw) then placeholder selector
    else or_default EmptyString (an_html raw) in
  Node html selector.

Definition clean_violations (violations : list axe_violation)
  : list simplified :=
  map (fun v =>
         let raw_nodes := or_default [] (av_nodes v) in
         Simplified (av_id v) (av_impact v) (av_help v)
                    (List.length raw_nodes) (map clean_node raw_nodes))
      violations.

(** A simplified violation whose identifier, impact and description are
    strings is a [violation] of the scanner's result. *)
Definition as_violation (s : simplified) : option violation :=
  match s_id s, s_impact s, s_description s with
  | Some i, Some m, Some d => Some (Violation i m d (s_count s) (s_nodes s))
  | _, _, _ => None
  end.

End DomScanner.

(** ** MD5 (RFC 1321), the function behind [hashlib.md5] *)

Module Md5.
Import Sha256.
Local Open Scope N_scope.

Definition rotl (n x : N) : N :=
  N.lor (w32 (N.shiftl x n)) (N.shiftr x (32 - n)).

(** The sine of an integer by its power series, in fixed point with 256
    fractional bits: the term of rank [k + 1] is the term of rank [k] times
    [x * x / ((2 k + 2) (2 k + 3))], with the sign changed. *)
Definition fraction_bits : Z := 256.

Fixpoint sine_series (count : nat) (k x term acc : Z) : Z :=
  match count with
  | O => acc
  | S n =>
      sine_series n (k + 1) x
                  (- (term * (x * x)) / ((2 * k + 2) * (2 * k + 3)))
                  (acc + term)
  end%Z.

(** The constant of round [i]: the integer part of [2^32 * abs (sin (i + 1))]. *)
Definition sine_constant (i : nat) : N :=
  let x := Z.of_nat (S i) in
  let sine := sine_series 160 0 x (x * 2 ^ fraction_bits) 0 in
  Z.to_N (Z.abs sine / 2 ^ (fraction_bits - 32)).

Definition T : list N := Eval vm_compute in map sine_constant (seq 0 64).

Definition shifts : list N :=
  flat_map (fun row => row ++ row ++ row ++ row)
    [ [7; 12; 17; 22]; [5; 9; 14; 20]; [4; 11; 16; 23]; [6; 10; 15; 21] ].

(** The four words of the state. *)
Record quad := Quad { qa : N; qb : N; qc : N; qd : N }.

(** The auxiliary function of round [i] and the index of the message word
    it reads. *)
Definition mix (i : nat) (b c d : N) : N * nat :=
  if (i <? 16)%nat then (N.lor (N.land b c) (N.land (not32 b) d), i)
  else if (i <? 32)%nat
  then (N.lor (N.land d b) (N.land (not32 d) c), ((5 * i + 1) mod 16)%nat)
  else if (i <? 48)%nat
  then (N.lxor (N.lxor b c) d, ((3 * i + 5) mod 16)%nat)
  else (N.lxor c (N.lor b (not32 d)), ((7 * i) mod 16)%nat).

Definition step (m : list N) (q : quad) (i : nat) : quad :=
  let (f, g) := mix i (qb q) (qc q) (qd q) in
  let f := add32 (add32 (add32 f (qa q)) (nth i T 0)) (nth g m 0) in
  Quad (qd q) (add32 (qb q) (rotl (nth i shifts 0) f)) (qb q) (qc q).

Definition compress (h : quad) (m : list N) : quad :=
  let r := fold_left (step m) (seq 0 64) h in
  Quad (add32 (qa h) (qa r)) (add32 (qb h) (qb r))
       (add32 (qc h) (qc r)) (add32 (qd h) (qd r)).

(** Padding: the bit 1, zeros up to 56 modulo 64, the bit length on 64
    bits, little-endian. *)
Definition le_bytes (count : nat) (x : N) : list N :=
  map (fun i => N.land (N.shiftr x (8 * N.of_nat i)) 0xff) (seq 0 count).

Definition pad (msg : list N) : list N :=
  let len := List.length msg in
  let zeros := ((64 - (len + 9) mod 64) mod 64)%nat in
  msg ++ [0x80] ++ repeat 0 zeros ++ le_bytes 8 (8 * N.of_nat len).

Definition le_word (b0 b1 b2 b3 : N) : N :=
  N.lor (N.lor b0 (N.shiftl b1 8)) (N.lor (N.shiftl b2 16) (N.shiftl b3 24)).

Fixpoint words (fuel : nat) (bytes : list N) : list N :=
  match fuel, bytes with
  | S k, b0 :: b1 :: b2 :: b3 :: rest => le_word b0 b1 b2 b3 :: words k rest
  | _, _ => []
  end.

Fixpoint blocks (fuel : nat) (h : quad) (ws : list N) : quad :=
  match fuel, ws with
  | S k, _ :: _ => blocks k (compress h (firstn 16 ws)) (skipn 16 ws)
  | _, _ => h
  end.

Definition initial : quad :=
  Quad 0x67452301 0xefcdab89 0x98badcfe 0x10325476.

Definition digest (msg : list N) : list N :=
  let padded := pad msg in
  let ws := words (List.length padded) padded in
  let r := blocks (List.length ws) initial ws in
  le_bytes 4 (qa r) ++ le_bytes 4 (qb r) ++ le_bytes 4 (qc r)
  ++ le_bytes 4 (qd r).

(** [hexdigest()]: sixteen bytes of two lowercase hexadecimal digits. *)
Definition hex_byte (b : N) : Text.text :=
  [ hex_digit (N.shiftr b 4); hex_digit b ].

Definition hexdigest (msg : list N) : string :=
  Text.to_string (flat_map hex_byte (digest msg)).

End Md5.

(** ** cache/redis_cache.py *)

Module RedisCache.
Import Model.
Local Open Scope string_scope.

Definition CACHE_TTL : N := 86400.

(** The dictionary that main.py saves and finds: the summary with its
    total, and the report. *)
Record audit_result := AuditResult { total : nat; report : list issue }.

(** What a call of [redis_client.get] followed by the decoding does: the
    call or [json.loads] raises, or the value is [None] or another false
    value, or it is a saved dictionary. *)
Inductive redis_reply :=
| Raised
| Falsy
| Value (cached : audit_result).

(** The Upstash client.  Its answers are those of a service outside the
    process: they depend on the key and on the number of calls made
    before.  [redis_setex] tells whether the call (and [json.dumps])
    returned without raising. *)
Record Redis := MkRedis
  { redis_get : nat -> string -> redis_reply;
    redis_setex : nat -> string -> N -> audit_result -> bool }.

(** The globals of the module: the client ([None] without a token or
    without the library), the fallback dictionary, and the number of calls
    made to the client so far. *)
Record cache := Cache
  { redis_client : option Redis;
    redis_calls : nat;
    _memory_cache : list (string * audit_result) }.

(** [d[k] = v]. *)
Fixpoint assign (k : string) (v : audit_result)
         (d : list (string * audit_result)) : list (string * audit_result) :=
  match d with
  | [] => [(k, v)]
  | (k', v') :: rest =>
      if String.eqb k k' then (k', v) :: rest
      else (k', v') :: assign k v rest
  end.

(** The body that [get_cached_result] and [get_recent_audit] share. *)
Definition read (cache_key : string) (c : cache)
  : option audit_result * cache :=
  match redis_client c with
  | Some client =>
      let c' := Cache (redis_client c) (S (redis_calls c)) (_memory_cache c) in
      match redis_get client (redis_calls c) cache_key with
      | Value cached => (Some cached, c')
      | Falsy => (None, c')
      | Raised => (None, c')
      end
  | None => (WcagMapper.lookup cache_key (_memory_cache c), c)
  end.

(** The body that [save_cached_result] and [save_recent_audit] share. *)
Definition save (cache_key : string) (ttl : N) (result : audit_result)
           (c : cache) : bool * cache :=
  match redis_client c with
  | Some client =>
      if redis_setex client (redis_calls c) cache_key ttl result
      then (true, Cache (redis_client c) (S (redis_calls c)) (_memory_cache c))
      else (true, Cache (redis_client c) (S (redis_calls c))
                        (assign cache_key result (_memory_cache c)))
  | None =>
      (true, Cache (redis_client c) (redis_calls c)
                   (assign cache_key result (_memory_cache c)))
  end.

Definition get_cached_result (url dom_hash : string) (c : cache)
  : option audit_result * cache :=
  read (DomCache._get_cache_key url dom_hash) c.

Definition save_cached_result (url dom_hash : string) (result : audit_result)
           (c : cache) : bool * cache :=
  save (DomCache._get_cache_key url dom_hash) CACHE_TTL result c.

Definition _get_url_key (url : string) : string :=
  "audit:recent:" ++ Md5.hexdigest (DomCache.utf8 (Text.of_string url)).

Definition get_recent_audit (url : string) (c : cache)
  : option audit_result * cache :=
  read (_get_url_key url) c.

Definition save_recent_audit (url : string) (result : audit_result)
           (ttl : N) (c : cache) : bool * cache :=
  save (_get_url_key url) ttl result c.

End RedisCache.

(** ** main.py: the audit endpoint

    The request is taken to be authenticated.  The database writes stand
    in try blocks of their own and what they return is only printed: the
    response and the caches do not depend on them, and they are left out. *)

Module Main.
Import Model RedisCache.
Local Open Scope string_scope.

Record AuditRequest := Request { request_url : string; force_rescan : bool }.

(** The dictionary the endpoint returns. *)
Record response := Response
  { status : string;
    response_url : string;
    cached : bool;
    summary_total : nat;
    response_report : list issue }.

(** The endpoint returns a response, or an exception of the pipeline
    becomes the status 500. *)
Inductive outcome :=
| Returned (r : response)
| Http500.

(** The response for a result found in a cache. *)
Definition from_cache (request : AuditRequest) (found : audit_result)
  : response :=
  Response "success" (request_url request) true (total found) (report found).

Definition start_audit (w : World) (request : AuditRequest) (c : cache)
  : outcome * cache :=
  let (recent_audit, c1) :=
    if force_rescan request then (None, c)
    else get_recent_audit (request_url request) c in
  match recent_audit with
  | Some found => (Returned (from_cache request found), c1)
  | None =>
      match Workflow.audit_graph w
              (Workflow.initial_state (request_url request)) with
      | None => (Http500, c1)
      | Some (h, final_state) =>
          let report := Workflow.deref h (final_report final_state) in
          let dom_hash := or_default EmptyString (dom_hash final_state) in
          let (found, c2) :=
            if negb (force_rescan request) && nonempty dom_hash
            then get_cached_result (request_url request) dom_hash c1
            else (None, c1) in
          match found with
          | Some found => (Returned (from_cache request found), c2)
          | None =>
              let result := AuditResult (List.length report) report in
              let c3 :=
                if nonempty dom_hash
                then snd (save_recent_audit (request_url request) result 300%N
                            (snd (save_cached_result (request_url request)
                                    dom_hash result c2)))
                else c2 in
              (Returned (Response "success" (request_url request) false
                                  (List.length report) report), c3)
          end
      end
  end.

End Main.

(** ** Predicates and examples of the further statements *)

Module Specs.
Import Model RedisCache.
Local Open Scope string_scope.

(** The violations of the scanner that Tier 1 lets pass: not a minor
    contrast violation, not of the rule region, and with a node. *)
Definition reportable (v : violation) : bool :=
  negb (String.eqb (v_id v) "color-contrast"
        && String.eqb (v_impact v) "minor")
  && negb (String.eqb (v_id v) "region")
  && nonnil (v_nodes v).

(** The findings Tier 1 keeps whatever their selector is. *)
Definition keepable (f : finding) : bool :=
  negb (String.eqb (or_default EmptyString (f_id f)) "color-contrast"
        && String.eqb (or_default EmptyString (f_impact f)) "minor")
  && negb (String.eqb (or_default EmptyString (f_id f)) "region")
  && (nonnil (or_default [] (f_nodes f))
      || nonnil (or_default [] (f_specific_nodes f))).

(** The selectors of a list of findings that are present and not empty. *)
Definition selectors (fs : list finding) : list string :=
  filter nonempty (map (fun f => or_default EmptyString (f_selector f)) fs).

(** The elements of a list of strings in the order of their first
    occurrence, without those in [seen]. *)
Fixpoint distinct (seen l : list string) : list string :=
  match l with
  | [] => []
  | x :: rest =>
      if mem x seen then distinct seen rest
      else x :: distinct (x :: seen) rest
  end.


(** The number of evidence nodes a finding brings to its group. *)
Definition evidence (f : finding) : nat :=
  List.length (or_default [] (f_specific_nodes f)).

(** How often an identifier occurs in a list. *)
Definition count (x : string) (l : list string) : nat :=
  List.length (filter (String.eqb x) l).


(** The rules that the table of wcag_mapper.py gives the priority
    CRITICAL. *)
Definition critical_rules : list string :=
  [ "button-name"; "color-contrast"; "image-alt"; "input-image-alt";
    "label"; "select-name" ].

(** A text in which some character is not white space. *)
Definition visible (s : string) : bool :=
  existsb (fun c => negb (Text.is_space c)) (Text.of_string s).

(** The fingerprint with which a run of the graph ends: main.py reads it
    with the empty string as default. *)
Definition fingerprint_of (run : option (store * AuditState)) : string :=
  match run with
  | Some (_, final_state) => or_default EmptyString (dom_hash final_state)
  | None => EmptyString
  end.



(** A client whose every call raises. *)
Definition failing_client : Redis :=
  MkRedis (fun _ _ => Raised) (fun _ _ _ _ => false).

(** The state of the module when it is loaded without a client. *)
Definition memory_only : cache := Cache None 0 [].

End Specs.

(* ===================================================================== *)
(** * Part II: properties                                                 *)
(* ===================================================================== *)

Unset Implicit Arguments.

(** ** Text *)

Module TextFacts.
Import Text.

Lemma of_to_string (s : text) : of_string (to_string s) = s.
Proof. apply list_ascii_of_string_of_list_ascii. Qed.

Lemma to_of_string (s : string) : to_string (of_string s) = s.
Proof. apply string_of_list_ascii_of_string. Qed.

Lemma length_to_string (s : text) :
  String.length (to_string s) = List.length s.
Proof.
  induction s as [|c s IH]; simpl; [reflexivity | now rewrite IH].
Qed.

Lemma length_of_string (s : string) :
  String.length s = List.length (of_string s).
Proof.
  induction s as [|c s IH]; simpl; [reflexivity | now rewrite IH].
Qed.

Lemma length_append (a b : string) :
  String.length (a ++ b) = String.length a + String.length b.
Proof.
  induction a as [|c a IH]; simpl; [reflexivity | now rewrite IH].
Qed.

(** A pattern that finds no match leaves the text as it is. *)
Lemma re_sub_del_no_match (m : matcher) (s : text) :
  Props.matches_somewhere m s = false -> re_sub m s = s.
Proof.
  unfold re_sub.
  induction s as [|c t IH]; intros H; [reflexivity|].
  cbn in H. cbn.
  destruct (m (c :: t)); [discriminate|].
  now rewrite (IH H).
Qed.

Lemma re_sub_del_length (m : matcher) (s : text) (skip : nat) :
  List.length (re_sub_del m skip s) <= List.length s.
Proof.
  revert skip.
  induction s as [|c t IH]; intros skip; [reflexivity|].
  cbn [re_sub_del].
  destruct skip as [|k].
  - destruct (m (c :: t)) as [r|].
    + destruct (List.length r <? List.length (c :: t)).
      * specialize (IH (List.length (c :: t) - List.length r - 1)).
        cbn [List.length] in *. lia.
      * cbn [List.length]. specialize (IH 0). lia.
    + cbn [List.length]. specialize (IH 0). lia.
  - specialize (IH k). cbn [List.length]. lia.
Qed.

(** A productive pattern that matches somewhere makes the text shorter. *)
Lemma re_sub_shortens (m : matcher) (s : text) :
  Props.productive m -> Props.matches_somewhere m s = true ->
  List.length (re_sub m s) < List.length s.
Proof.
  intros Hp. unfold re_sub.
  induction s as [|c t IH]; intros H.
  - cbn in H. destruct (m []) as [r|] eqn:E; [|discriminate].
    apply Hp in E. cbn in E. lia.
  - cbn in H. cbn [re_sub_del].
    destruct (m (c :: t)) as [r|] eqn:E.
    + pose proof (Hp _ _ E) as Hlt.
      apply Nat.ltb_lt in Hlt. rewrite Hlt.
      pose proof (re_sub_del_length m t
                    (List.length (c :: t) - List.length r - 1)).
      cbn [List.length] in *. lia.
    + specialize (IH H). cbn [List.length]. lia.
Qed.

Lemma matches_somewhere_head (m : matcher) (s : text) :
  Props.matches_somewhere m s = false -> m s = None.
Proof.
  destruct s as [|c t]; cbn; destruct (m _); congruence.
Qed.

Lemma matches_somewhere_cons (m : matcher) (c : ascii) (t : text) :
  Props.matches_somewhere m (c :: t) = false ->
  m (c :: t) = None /\ Props.matches_somewhere m t = false.
Proof.
  cbn [Props.matches_somewhere].
  destruct (m (c :: t)); [discriminate | now split].
Qed.

Lemma matches_somewhere_tail (m : matcher) (u v : text) :
  Props.matches_somewhere m (u ++ v) = false ->
  Props.matches_somewhere m v = false.
Proof.
  induction u as [|c u IH]; [trivial|].
  cbn. destruct (m (c :: u ++ v)); [discriminate | exact IH].
Qed.

Lemma contains_by_matches eq (p s : text) :
  contains_by eq p s = Props.matches_somewhere (strip_prefix_by eq p) s.
Proof.
  induction s as [|c t IH]; cbn; [reflexivity|].
  destruct (strip_prefix_by eq p (c :: t)); [reflexivity | exact IH].
Qed.

(** After [skip] characters of a match the scan goes on behind them. *)
Lemma re_sub_del_skip (m : matcher) (x r : text) :
  re_sub_del m (List.length x) (x ++ r) = re_sub_del m 0 r.
Proof.
  induction x as [|c x IH]; [reflexivity|].
  cbn [List.length app re_sub_del]. exact IH.
Qed.

(** A literal matches in front of itself. *)
Lemma strip_prefix_ci_self (p x : text) :
  strip_prefix_ci p (p ++ x) = Some x.
Proof.
  unfold strip_prefix_ci.
  induction p as [|a p IH]; [reflexivity|].
  cbn. unfold eqb_ci at 1. now rewrite Ascii.eqb_refl.
Qed.

(** A literal none of whose characters matches [c0] does not match a text
    that is cut short in front of a [c0], if it did not match the text
    before the cut with another continuation. *)
Lemma strip_prefix_by_blocked eq (p v t y : text) (c0 : ascii) :
  forallb (fun a => negb (eq a c0)) p = true ->
  strip_prefix_by eq p (v ++ t) = None ->
  strip_prefix_by eq p (v ++ c0 :: y) = None.
Proof.
  revert v. induction p as [|a p IH]; intros v Hp H; [discriminate|].
  cbn in Hp. apply andb_true_iff in Hp as [Ha Hp].
  destruct v as [|c v].
  - cbn. apply negb_true_iff in Ha. now rewrite Ha.
  - cbn in *. destruct (eq a c); [now apply IH | reflexivity].
Qed.

(** The same for a literal whose first character may match [c0], behind
    at least one character. *)
Lemma strip_prefix_by_blocked_tail eq (a c c0 : ascii) (p v t y : text) :
  forallb (fun b => negb (eq b c0)) p = true ->
  strip_prefix_by eq (a :: p) (c :: v ++ t) = None ->
  strip_prefix_by eq (a :: p) (c :: v ++ c0 :: y) = None.
Proof.
  intros Hp. cbn. destruct (eq a c); [|reflexivity].
  now apply strip_prefix_by_blocked.
Qed.

Lemma after_char_app (c : ascii) (a r : text) :
  existsb (Ascii.eqb c) a = false -> after_char c (a ++ c :: r) = Some r.
Proof.
  induction a as [|x a IH]; cbn.
  - now rewrite Ascii.eqb_refl.
  - intros H. apply orb_false_iff in H as [Hx Ha].
    rewrite Ascii.eqb_sym, Hx. now apply IH.
Qed.

Lemma strip_prefix_by_length eq (p s r : text) :
  strip_prefix_by eq p s = Some r ->
  List.length r + List.length p = List.length s.
Proof.
  revert s. induction p as [|a p IH]; intros s H.
  - cbn in H. injection H as ->. cbn. lia.
  - destruct s as [|c s]; [discriminate|].
    cbn in H. destruct (eq a c); [|discriminate].
    apply IH in H. cbn. lia.
Qed.

Lemma after_char_length (c : ascii) (s r : text) :
  after_char c s = Some r -> List.length r < List.length s.
Proof.
  induction s as [|x s IH]; [discriminate|].
  cbn. destruct (Ascii.eqb x c).
  - intros H. injection H as ->. lia.
  - intros H. apply IH in H. lia.
Qed.

Lemma after_first_by_length eq (p s r : text) :
  after_first_by eq p s = Some r ->
  List.length r + List.length p <= List.length s.
Proof.
  induction s as [|x s IH]; cbn [after_first_by].
  - destruct (strip_prefix_by eq p []) eqn:E; [|discriminate].
    intros H. injection H as ->. apply strip_prefix_by_length in E. lia.
  - destruct (strip_prefix_by eq p (x :: s)) eqn:E.
    + intros H. injection H as ->. apply strip_prefix_by_length in E. lia.
    + intros H. apply IH in H. cbn [List.length]. lia.
Qed.

Lemma drop_while_length (f : ascii -> bool) (s : text) :
  List.length (drop_while f s) <= List.length s.
Proof.
  induction s as [|c s IH]; cbn; [lia|].
  destruct (f c); cbn; lia.
Qed.

End TextFacts.

(** ** The fingerprint *)

Module DomCacheFacts.
Import Text DomCache.

Lemma hex_digit_lower_hex (n : N) :
  Props.is_lower_hex (Sha256.hex_digit n) = true.
Proof.
  unfold Sha256.hex_digit.
  assert (H : (N.to_nat (N.land n 15) < 16)%nat).
  { assert (N.land n 15 < 16)%N.
    { change 15%N with (N.ones 4). rewrite N.land_ones.
      apply N.mod_lt. discriminate. }
    lia. }
  revert H. generalize (N.to_nat (N.land n 15)). intros k Hk.
  do 16 (destruct k as [|k]; [reflexivity|]). lia.
Qed.


Lemma hex_regs_length (r : Sha256.regs) :
  List.length (Sha256.hex_regs r) = 64.
Proof. reflexivity. Qed.



(** The model of SHA-256 on the test vectors of FIPS 180-4: the first
    constants, the one-block message abc and a message of two blocks. *)
Example sha256_constants :
  firstn 2 Sha256.K = [ 0x428a2f98; 0x71374491 ]%N
  /\ Sha256.ra Sha256.H0 = 0x6a09e667%N
  /\ Sha256.rh Sha256.H0 = 0x5be0cd19%N.
Proof. vm_compute. repeat split. Qed.

Example sha256_abc :
  Sha256.hexdigest [ 97; 98; 99 ]%N
  = "ba7816bf8f01cfea414140de5dae2223b00361a396177a9cb410ff61f20015ad"%string.
Proof. vm_compute. reflexivity. Qed.

Example sha256_two_blocks :
  Sha256.hexdigest
    (utf8 (of_string
             "abcdbcdecdefdefgefghfghighijhijkijkljklmklmnlmnomnopnopq"))
  = "248d6a61d20638b8e5c026930c3e6039a33ce45964ff2167f6ecedd419db06c1"%string.
Proof. vm_compute. reflexivity. Qed.

(** The hash of the empty page, as [hashlib] gives it. *)
Example compute_dom_hash_empty :
  compute_dom_hash EmptyString
  = "e3b0c44298fc1c149afbf4c8996fb92427ae41e4649b934ca495991b7852b855"%string.
Proof. vm_compute. reflexivity. Qed.

(** Equal inputs give equal hashes. *)
Lemma compute_dom_hash_deterministic (x y : string) :
  x = y -> compute_dom_hash x = compute_dom_hash y.
Proof. now intros ->. Qed.

(** *** Inserting a script element *)

Lemma after_first_by_unfold eq (p s : text) :
  after_first_by eq p s
  = match strip_prefix_by eq p s with
    | Some r => Some r
    | None => match s with
              | [] => None
              | _ :: s' => after_first_by eq p s'
              end
    end.
Proof. destruct s; reflexivity. Qed.

Lemma opens_script_no_match (s : text) :
  Props.opens_script s = false ->
  Props.matches_somewhere (element "script") s = false.
Proof.
  unfold Props.opens_script. rewrite TextFacts.contains_by_matches.
  induction s as [|c t IH]; cbn [Props.matches_somewhere].
  - intros H. unfold element.
    change (strip_prefix_ci (of_string ("<" ++ "script")) [])
      with (strip_prefix_by eqb_ci (of_string "<script") []).
    destruct (strip_prefix_by eqb_ci (of_string "<script") []);
      [discriminate | reflexivity].
  - intros H. unfold element at 1.
    change (strip_prefix_ci (of_string ("<" ++ "script")) (c :: t))
      with (strip_prefix_by eqb_ci (of_string "<script") (c :: t)).
    destruct (strip_prefix_by eqb_ci (of_string "<script") (c :: t));
      [discriminate | now apply IH].
Qed.

(** The closing tag is found right behind a body that holds none. *)
Lemma after_first_closing (body rest : text) :
  Props.closes_script body = false ->
  after_first_by eqb_ci (of_string "</script>")
                 (body ++ of_string "</script>" ++ rest)
  = Some rest.
Proof.
  unfold Props.closes_script. rewrite TextFacts.contains_by_matches.
  induction body as [|x body IH]; intros H.
  - rewrite after_first_by_unfold. cbn [app].
    change (strip_prefix_by eqb_ci) with strip_prefix_ci.
    now rewrite TextFacts.strip_prefix_ci_self.
  - rewrite after_first_by_unfold.
    apply TextFacts.matches_somewhere_cons in H as [Hh H].
    rewrite <- (app_nil_r (x :: body)) in Hh.
    cbn [app] in Hh |- *.
    change (of_string "</script>" ++ rest)
      with ("<"%char :: of_string "/script>" ++ rest).
    change (of_string "</script>")
      with ("<"%char :: of_string "/script>") in Hh |- * .
    rewrite (TextFacts.strip_prefix_by_blocked_tail eqb_ci "<" x "<"
               (of_string "/script>") body []
               (of_string "/script>" ++ rest) eq_refl Hh).
    apply IH. exact H.
Qed.

(** The pattern matches a whole script element whose attributes hold no
    [>] and whose body holds no closing tag. *)
Lemma element_script_self (attrs body rest : text) :
  existsb (Ascii.eqb ">") attrs = false ->
  Props.closes_script body = false ->
  element "script" (Props.script_element attrs body ++ rest) = Some rest.
Proof.
  intros Ha Hb. unfold element, Props.script_element.
  change (of_string ("<" ++ "script")) with (of_string "<script").
  change (of_string ("</" ++ "script" ++ ">")) with (of_string "</script>").
  rewrite <- !app_assoc. rewrite TextFacts.strip_prefix_ci_self.
  rewrite <- app_comm_cons, <- app_assoc.
  rewrite (TextFacts.after_char_app _ _ _ Ha).
  now apply after_first_closing.
Qed.

(** The first pass deletes a script element that is put into a text
    without any opening script tag, and nothing else. *)
Lemma re_sub_script_insert (t1 t2 attrs body : text) :
  Props.opens_script (t1 ++ t2) = false ->
  existsb (Ascii.eqb ">") attrs = false ->
  Props.closes_script body = false ->
  re_sub (element "script") (t1 ++ Props.script_element attrs body ++ t2)
  = t1 ++ t2.
Proof.
  intros Ho Ha Hb. unfold re_sub.
  induction t1 as [|x t1 IH].
  - cbn [app] in *.
    pose proof (element_script_self attrs body t2 Ha Hb) as Hm.
    assert (Hs : exists tl, Props.script_element attrs body = "<"%char :: tl)
      by (eexists; reflexivity).
    destruct Hs as [tl Htl]. rewrite Htl in *. cbn [app] in *.
    cbn [re_sub_del]. rewrite Hm.
    assert (Hl : (List.length t2 <? List.length ("<"%char :: tl ++ t2)) = true)
      by (apply Nat.ltb_lt; cbn [List.length]; rewrite length_app; lia).
    rewrite Hl.
    replace (List.length ("<"%char :: tl ++ t2) - List.length t2 - 1)
      with (List.length tl)
      by (cbn [List.length]; rewrite length_app; lia).
    rewrite TextFacts.re_sub_del_skip.
    apply TextFacts.re_sub_del_no_match.
    now apply opens_script_no_match.
  - unfold Props.opens_script in Ho.
    rewrite TextFacts.contains_by_matches in Ho.
    cbn [app] in Ho.
    apply TextFacts.matches_somewhere_cons in Ho as [Hh Ho].
    cbn [app] in Hh |- *. cbn [re_sub_del].
    assert (Hn : element "script"
                   (x :: t1 ++ Props.script_element attrs body ++ t2) = None).
    { unfold element.
      change (of_string ("<" ++ "script"))
        with ("<"%char :: of_string "script") in *.
      change (of_string "<script")
        with ("<"%char :: of_string "script") in Hh.
      change (Props.script_element attrs body ++ t2)
        with ("<"%char :: (of_string "script" ++ attrs
                           ++ ">"%char :: body ++ of_string "</script>")
                          ++ t2).
      unfold strip_prefix_ci.
      cbn [app].
      rewrite (TextFacts.strip_prefix_by_blocked_tail eqb_ci "<" x "<"
                 (of_string "script") t1 t2
                 ((of_string "script" ++ attrs
                   ++ ">"%char :: body ++ of_string "</script>") ++ t2)
                 eq_refl Hh).
      reflexivity. }
    rewrite Hn. f_equal. apply IH.
    unfold Props.opens_script. rewrite TextFacts.contains_by_matches.
    exact Ho.
Qed.

(** X27. A script element whose attributes hold no closing angle bracket
    and whose content holds no closing script tag can be put anywhere
    into markup that opens no script element of its own: the fingerprint
    stays the same. *)
Lemma compute_dom_hash_script_insertion (t1 t2 attrs body : text) :
  Props.opens_script (t1 ++ t2) = false ->
  existsb (Ascii.eqb ">") attrs = false ->
  Props.closes_script body = false ->
  compute_dom_hash
    (to_string (t1 ++ Props.script_element attrs body ++ t2))
  = compute_dom_hash (to_string (t1 ++ t2)).
Proof.
  intros Ho Ha Hb. unfold compute_dom_hash, normalize.
  rewrite !TextFacts.of_to_string.
  rewrite (re_sub_script_insert _ _ _ _ Ho Ha Hb).
  rewrite (TextFacts.re_sub_del_no_match (element "script") (t1 ++ t2)
             (opens_script_no_match _ Ho)).
  reflexivity.
Qed.

Lemma compute_dom_hash_script_insertion_witness :
  compute_dom_hash
    (to_string (of_string "<p>Hello</p>"
                ++ Props.script_element (of_string " type='module'")
                                        (of_string "var t = Date.now();")
                ++ of_string "<p>x</p>"))
  = compute_dom_hash
      (to_string (of_string "<p>Hello</p>" ++ of_string "<p>x</p>")).
Proof.
  apply (compute_dom_hash_script_insertion
           (of_string "<p>Hello</p>") (of_string "<p>x</p>")
           (of_string " type='module'") (of_string "var t = Date.now();"));
    reflexivity.
Defined.

(** The scenarios of the specification on double-quoted data attributes
    and on script blocks. *)
Example compute_dom_hash_data_session :
  compute_dom_hash
    ("<div class=" ++ dqs ++ "card" ++ dqs ++ " data-session=" ++ dqs
     ++ "abc123abc123abc123abc123" ++ dqs ++ ">Hello</div>")
  = compute_dom_hash
      ("<div class=" ++ dqs ++ "card" ++ dqs ++ ">Hello</div>").
Proof. vm_compute. reflexivity. Qed.

Example compute_dom_hash_script_block :
  compute_dom_hash
    "<p>Hello</p><script type='module'>var t = Date.now();</script><p>x</p>"
  = compute_dom_hash "<p>Hello</p><p>x</p>".
Proof. vm_compute. reflexivity. Qed.

(** C4. The markup [<div data-x='1'>] is [<div>] with a data attribute
    inserted, and the two have different hashes: the pass that removes data
    attributes only knows double-quoted values, and names of letters,
    digits, underscores and hyphens, so that the double-quoted attribute
    [data-a.b] stays as well. *)
Theorem compute_dom_hash_single_quoted_data_attribute :
  let original := ("<div" ++ ">")%string in
  let inserted := ("<div" ++ " data-x='1'" ++ ">")%string in
  let dotted :=
    ("<div" ++ " data-a.b=" ++ dqs ++ "1" ++ dqs ++ ">")%string in
  to_string (normalize (of_string inserted)) = inserted
  /\ to_string (normalize (of_string dotted)) = dotted
  /\ to_string (normalize (of_string original)) = original
  /\ compute_dom_hash inserted
     = "c54f901653f141673f5f3387c3a34923518026498eda12b7924ba2c9a4452b7d"%string
  /\ compute_dom_hash original
     = "9e4527fb137f0b371f783b4e935e11a40a3dfb71bd3c485e78568f19a35c21ee"%string
  /\ compute_dom_hash inserted <> compute_dom_hash original
  /\ compute_dom_hash dotted <> compute_dom_hash original.
Proof.
  cbv zeta.
  repeat split; try (vm_compute; reflexivity); vm_compute; discriminate.
Qed.

End DomCacheFacts.

(** ** cache/dom_cache.py on every string *)

Module UnicodeFacts.
Import Unicode.

(** *** The strings of code points below 256 *)

Ltac every_character c :=
  destruct c as [[] [] [] [] [] [] [] []]; reflexivity.

Lemma is_space_code (c : ascii) : is_space (Text.code c) = Text.is_space c.
Proof. every_character c. Qed.

Lemma is_alnum_code (c : ascii) : is_alnum (Text.code c) = Text.is_alnum c.
Proof. every_character c. Qed.

Lemma is_data_name_code (c : ascii) :
  is_data_name (Text.code c) = Text.is_data_name c.
Proof. every_character c. Qed.

Lemma lower_code (c : ascii) : lower (Text.code c) = Text.code (Text.lower c).
Proof. every_character c. Qed.

Lemma is_surrogate_code (c : ascii) : is_surrogate (Text.code c) = false.
Proof. every_character c. Qed.

Lemma encode_char_code (c : ascii) :
  encode_char (Text.code c) = DomCache.utf8 [c].
Proof. every_character c. Qed.

Lemma eqb_code (a b : ascii) :
  N.eqb (Text.code a) (Text.code b) = Ascii.eqb a b.
Proof.
  unfold Text.code.
  destruct (Ascii.eqb_spec a b) as [->|Hne].
  - apply N.eqb_refl.
  - apply N.eqb_neq. intros H. apply Hne.
    rewrite <- (ascii_N_embedding a), <- (ascii_N_embedding b). now rewrite H.
Qed.

Lemma eqb_ci_code (p c : ascii) :
  eqb_ci (Text.code p) (Text.code c) = Text.eqb_ci p c.
Proof.
  unfold eqb_ci, Text.eqb_ci. rewrite !lower_code. apply eqb_code.
Qed.

Section Latin1.

Variable eqU : N -> N -> bool.
Variable eqT : ascii -> ascii -> bool.
Hypothesis eq_code : forall a b, eqU (Text.code a) (Text.code b) = eqT a b.

Lemma strip_prefix_by_code (p s : Text.text) :
  strip_prefix_by eqU (of_text p) (of_text s)
  = option_map of_text (Text.strip_prefix_by eqT p s).
Proof.
  revert s. induction p as [|a p IH]; intros [|c s]; try reflexivity.
  cbn. rewrite eq_code. destruct (eqT a c); [apply IH | reflexivity].
Qed.

Lemma after_first_by_code (p s : Text.text) :
  after_first_by eqU (of_text p) (of_text s)
  = option_map of_text (Text.after_first_by eqT p s).
Proof.
  induction s as [|c s IH].
  - cbn [of_text map after_first_by Text.after_first_by].
    change (@nil N) with (of_text []) at 1. rewrite strip_prefix_by_code.
    destruct (Text.strip_prefix_by eqT p []); reflexivity.
  - cbn [after_first_by Text.after_first_by].
    change (of_text (c :: s)) with (Text.code c :: of_text s).
    cbn [after_first_by].
    change (Text.code c :: of_text s) with (of_text (c :: s)).
    rewrite strip_prefix_by_code.
    destruct (Text.strip_prefix_by eqT p (c :: s)); [reflexivity | exact IH].
Qed.

End Latin1.

Lemma after_char_code (c : ascii) (s : Text.text) :
  after_char (Text.code c) (of_text s)
  = option_map of_text (Text.after_char c s).
Proof.
  induction s as [|x s IH]; [reflexivity|].
  cbn. rewrite eqb_code. destruct (Ascii.eqb x c); [reflexivity | exact IH].
Qed.

Section Classes.

Variable fU : N -> bool.
Variable fT : ascii -> bool.
Hypothesis f_code : forall c, fU (Text.code c) = fT c.

Lemma drop_while_code (s : Text.text) :
  drop_while fU (of_text s) = of_text (Text.drop_while fT s).
Proof.
  induction s as [|c s IH]; [reflexivity|].
  cbn. rewrite f_code. destruct (fT c); [exact IH | reflexivity].
Qed.

Lemma take_while_code (s : Text.text) :
  take_while fU (of_text s) = of_text (Text.take_while fT s).
Proof.
  induction s as [|c s IH]; [reflexivity|].
  cbn. rewrite f_code. destruct (fT c); [|reflexivity].
  cbn. f_equal. exact IH.
Qed.

End Classes.

Lemma length_of_text (s : Text.text) : List.length (of_text s) = List.length s.
Proof. apply length_map. Qed.

Lemma re_sub_del_code (mU : matcher) (mT : Text.matcher) :
  (forall s, mU (of_text s) = option_map of_text (mT s)) ->
  forall s skip,
    re_sub_del mU skip (of_text s) = of_text (Text.re_sub_del mT skip s).
Proof.
  intros Hm. induction s as [|c t IH]; intros skip; [reflexivity|].
  change (of_text (c :: t)) with (Text.code c :: of_text t).
  cbn [re_sub_del Text.re_sub_del].
  destruct skip as [|k]; [|apply IH].
  change (Text.code c :: of_text t) with (of_text (c :: t)).
  rewrite Hm. destruct (mT (c :: t)) as [r|]; cbn [option_map].
  - rewrite !length_of_text.
    destruct (Nat.ltb (List.length r) (List.length (c :: t))).
    + apply IH.
    + change (of_text (c :: ?x)) with (Text.code c :: of_text x).
      f_equal. apply IH.
  - change (of_text (c :: ?x)) with (Text.code c :: of_text x).
    f_equal. apply IH.
Qed.

Lemma collapse_ws_code (s : Text.text) :
  forall in_run,
    collapse_ws in_run (of_text s) = of_text (Text.collapse_ws in_run s).
Proof.
  induction s as [|c s IH]; intros in_run; [reflexivity|].
  cbn [of_text map collapse_ws Text.collapse_ws]. rewrite is_space_code.
  destruct (Text.is_space c).
  - destruct in_run; [apply IH|]. cbn [map].
    change (Text.code " ") with 32%N. f_equal. apply IH.
  - cbn [map]. f_equal. apply IH.
Qed.

Lemma strip_code (s : Text.text) : strip (of_text s) = of_text (Text.strip s).
Proof.
  unfold strip, Text.strip, of_text.
  rewrite (drop_while_code is_space Text.is_space is_space_code).
  unfold of_text. rewrite <- map_rev.
  rewrite (drop_while_code is_space Text.is_space is_space_code).
  unfold of_text. now rewrite map_rev.
Qed.

Lemma element_code (tag : string) (s : Text.text) :
  element tag (of_text s) = option_map of_text (DomCache.element tag s).
Proof.
  unfold element, DomCache.element, strip_prefix_ci, Text.strip_prefix_ci,
    of_string.
  rewrite (strip_prefix_by_code eqb_ci Text.eqb_ci eqb_ci_code).
  destruct (Text.strip_prefix_by Text.eqb_ci _ s) as [r|]; [|reflexivity].
  cbn [option_map]. change 62%N with (Text.code ">").
  rewrite after_char_code.
  destruct (Text.after_char ">" r) as [body|]; [|reflexivity].
  cbn [option_map].
  apply (after_first_by_code eqb_ci Text.eqb_ci eqb_ci_code).
Qed.

Lemma comment_code (s : Text.text) :
  comment (of_text s) = option_map of_text (DomCache.comment s).
Proof.
  unfold comment, DomCache.comment, strip_prefix, Text.strip_prefix, of_string.
  rewrite (strip_prefix_by_code N.eqb Ascii.eqb eqb_code).
  destruct (Text.strip_prefix_by Ascii.eqb _ s) as [r|]; [|reflexivity].
  cbn [option_map].
  apply (after_first_by_code N.eqb Ascii.eqb eqb_code).
Qed.

Lemma data_attribute_code (s : Text.text) :
  data_attribute (of_text s)
  = option_map of_text (DomCache.data_attribute s).
Proof.
  unfold data_attribute, DomCache.data_attribute, strip_prefix,
    Text.strip_prefix, of_string.
  rewrite (take_while_code is_space Text.is_space is_space_code).
  destruct (Text.take_while Text.is_space s); [reflexivity|].
  cbn [of_text map].
  rewrite (drop_while_code is_space Text.is_space is_space_code).
  rewrite (strip_prefix_by_code N.eqb Ascii.eqb eqb_code).
  destruct (Text.strip_prefix_by Ascii.eqb _ _) as [r|]; [|reflexivity].
  cbn [option_map].
  rewrite (take_while_code is_data_name Text.is_data_name is_data_name_code).
  destruct (Text.take_while Text.is_data_name r); [reflexivity|].
  cbn [of_text map].
  rewrite (drop_while_code is_data_name Text.is_data_name is_data_name_code).
  change [61%N; 34%N] with (of_text ["="%char; Text.dq]).
  rewrite (strip_prefix_by_code N.eqb Ascii.eqb eqb_code).
  destruct (Text.strip_prefix_by Ascii.eqb _ _) as [v|]; [|reflexivity].
  cbn [option_map]. change 34%N with (Text.code Text.dq).
  apply after_char_code.
Qed.

Lemma session_id_code (s : Text.text) :
  session_id (of_text s) = option_map of_text (DomCache.session_id s).
Proof.
  unfold session_id, DomCache.session_id, strip_prefix, Text.strip_prefix,
    of_string.
  rewrite (take_while_code is_space Text.is_space is_space_code).
  destruct (Text.take_while Text.is_space s); [reflexivity|].
  cbn [of_text map].
  rewrite (drop_while_code is_space Text.is_space is_space_code).
  change (of_text (Text.of_string "id=") ++ [34%N])
    with (of_text (Text.of_string "id=" ++ [Text.dq])).
  rewrite (strip_prefix_by_code N.eqb Ascii.eqb eqb_code).
  destruct (Text.strip_prefix_by Ascii.eqb _ _) as [r|]; [|reflexivity].
  cbn [option_map].
  rewrite (take_while_code is_alnum Text.is_alnum is_alnum_code).
  rewrite length_of_text.
  destruct (Nat.leb 20 _); [|reflexivity].
  rewrite (drop_while_code is_alnum Text.is_alnum is_alnum_code).
  change [34%N] with (of_text [Text.dq]).
  apply (strip_prefix_by_code N.eqb Ascii.eqb eqb_code).
Qed.

Lemma normalize_code (s : Text.text) :
  normalize (of_text s) = of_text (DomCache.normalize s).
Proof.
  unfold normalize, DomCache.normalize, re_sub, Text.re_sub.
  rewrite !(re_sub_del_code _ _ (element_code _)).
  rewrite (re_sub_del_code _ _ comment_code).
  rewrite (re_sub_del_code _ _ data_attribute_code).
  rewrite (re_sub_del_code _ _ session_id_code).
  rewrite collapse_ws_code. apply strip_code.
Qed.

Lemma encode_code (s : Text.text) :
  encode (of_text s) = Some (DomCache.utf8 s).
Proof.
  unfold encode.
  assert (H : existsb is_surrogate (of_text s) = false).
  { unfold of_text. induction s as [|c s IH]; [reflexivity|].
    cbn [map existsb]. now rewrite is_surrogate_code, IH. }
  rewrite H. f_equal. clear H.
  induction s as [|c s IH]; [reflexivity|].
  cbn [of_text map flat_map]. rewrite encode_char_code.
  unfold of_text in IH. rewrite IH. unfold DomCache.utf8. cbn [flat_map].
  now rewrite app_nil_r.
Qed.

(** On a string of code points below 256 the encoding cannot fail, and
    the fingerprint is the one of [DomCache]. *)
Lemma compute_dom_hash_latin1 (html : string) :
  compute_dom_hash (of_string html) = Some (DomCache.compute_dom_hash html).
Proof.
  unfold compute_dom_hash, of_string, DomCache.compute_dom_hash.
  now rewrite normalize_code, encode_code.
Qed.

(** *** What the passes keep *)










End UnicodeFacts.

(** ** The sanitizer *)

Module OutputGuardFacts.
Import Text OutputGuard.
Local Open Scope string_scope.

Lemma script_block_productive : Props.productive script_block.
Proof.
  intros s r. unfold script_block.
  destruct (strip_prefix_ci (of_string "<script") s) as [r1|] eqn:E1;
    [|discriminate].
  apply TextFacts.strip_prefix_by_length in E1. cbn in E1.
  destruct r1 as [|c r1']; [discriminate|].
  destruct (is_word c); [discriminate|].
  destruct (after_char ">" (c :: r1')) as [body|] eqn:E2; [|discriminate].
  apply TextFacts.after_char_length in E2.
  intros H. apply TextFacts.after_first_by_length in H. lia.
Qed.

Lemma javascript_scheme_productive : Props.productive javascript_scheme.
Proof.
  intros s r H. apply TextFacts.strip_prefix_by_length in H.
  cbn in H. lia.
Qed.

Lemma event_handler_productive (q : ascii) :
  Props.productive (event_handler q).
Proof.
  intros s r. unfold event_handler.
  destruct s as [|c t]; [discriminate|].
  destruct (is_space c); [|discriminate].
  destruct (strip_prefix_ci (of_string "on") t) as [r1|] eqn:E1;
    [|discriminate].
  apply TextFacts.strip_prefix_by_length in E1.
  destruct (take_while is_word r1); [discriminate|].
  destruct (strip_prefix [ "="%char; q ] (drop_while is_word r1))
    as [r2|] eqn:E2; [|discriminate].
  apply TextFacts.strip_prefix_by_length in E2.
  pose proof (TextFacts.drop_while_length is_word r1) as Hd.
  intros H. apply TextFacts.after_char_length in H.
  cbn [List.length of_string list_ascii_of_string] in *. lia.
Qed.

(** No pass makes the payload longer. *)
Lemma sanitize_length (s : text) :
  List.length (sanitize s) <= List.length s.
Proof.
  unfold sanitize, re_sub.
  do 3 (etransitivity; [apply TextFacts.re_sub_del_length|]).
  apply TextFacts.re_sub_del_length.
Qed.

(** A payload in which none of the four patterns matches is left as it is
    and gets no marker. *)
Lemma validate_fix_clean_unchanged (fix_code : string) :
  Props.has_script_block fix_code = false ->
  Props.has_javascript_scheme fix_code = false ->
  Props.has_event_handler fix_code = false ->
  validate_fix fix_code = fix_code.
Proof.
  unfold Props.has_script_block, Props.has_javascript_scheme,
    Props.has_event_handler.
  intros H1 H2 H3. apply orb_false_iff in H3 as [H3 H4].
  unfold validate_fix. destruct fix_code as [|c rest]; [reflexivity|].
  set (s := String c rest) in *.
  unfold sanitize.
  rewrite (TextFacts.re_sub_del_no_match _ _ H1).
  rewrite (TextFacts.re_sub_del_no_match _ _ H2).
  rewrite (TextFacts.re_sub_del_no_match _ _ H3).
  rewrite (TextFacts.re_sub_del_no_match _ _ H4).
  rewrite TextFacts.to_of_string, String.eqb_refl. reflexivity.
Qed.

(** The handler pattern of the code asks for white space in front of the
    attribute; a payload without any attribute of the form the
    specification gives has no match of it either. *)
Lemma event_handler_is_attribute (q c : ascii) (r x : text) :
  event_handler q (c :: r) = Some x -> Props.handler_attribute q r = Some x.
Proof.
  unfold event_handler, Props.handler_attribute.
  destruct (is_space c); [trivial | discriminate].
Qed.

Lemma matches_somewhere_attribute (q : ascii) (s : text) :
  Props.matches_somewhere (Props.handler_attribute q) s = false ->
  Props.matches_somewhere (event_handler q) s = false.
Proof.
  induction s as [|c t IH]; [reflexivity|].
  intros H. apply TextFacts.matches_somewhere_cons in H as [_ H].
  cbn [Props.matches_somewhere].
  destruct (event_handler q (c :: t)) as [x|] eqn:E; [|now apply IH].
  apply event_handler_is_attribute in E.
  destruct t as [|c' t']; cbn [Props.matches_somewhere] in H;
    rewrite E in H; discriminate.
Qed.

Lemma validate_fix_clean_unchanged_as_specified (fix_code : string) :
  Props.has_script_block fix_code = false ->
  Props.has_javascript_scheme fix_code = false ->
  Props.has_handler_attribute fix_code = false ->
  validate_fix fix_code = fix_code.
Proof.
  intros H1 H2 H3. apply validate_fix_clean_unchanged; trivial.
  unfold Props.has_handler_attribute in H3.
  apply orb_false_iff in H3 as [H3 H4].
  unfold Props.has_event_handler.
  now rewrite !matches_somewhere_attribute.
Qed.

(** A payload in which one of the patterns matches comes back shorter and
    marked. *)
Lemma validate_fix_unclean_marked (fix_code : string) :
  Props.has_script_block fix_code
  || Props.has_javascript_scheme fix_code
  || Props.has_event_handler fix_code = true ->
  exists cleaned,
    validate_fix fix_code = (cleaned ++ marker)%string
    /\ String.length cleaned < String.length fix_code.
Proof.
  unfold Props.has_script_block, Props.has_javascript_scheme,
    Props.has_event_handler.
  intros H.
  assert (Hshort : List.length (sanitize (of_string fix_code))
                   < List.length (of_string fix_code)).
  { unfold sanitize.
    set (s0 := of_string fix_code) in *.
    set (p1 := re_sub script_block s0).
    set (p2 := re_sub javascript_scheme p1).
    set (p3 := re_sub (event_handler dq) p2).
    pose proof (TextFacts.re_sub_del_length script_block s0 0) as L1.
    pose proof (TextFacts.re_sub_del_length javascript_scheme p1 0) as L2.
    pose proof (TextFacts.re_sub_del_length (event_handler dq) p2 0) as L3.
    pose proof (TextFacts.re_sub_del_length (event_handler "'") p3 0) as L4.
    fold (re_sub script_block s0) in L1. fold p1 in L1.
    fold (re_sub javascript_scheme p1) in L2. fold p2 in L2.
    fold (re_sub (event_handler dq) p2) in L3. fold p3 in L3.
    fold (re_sub (event_handler "'") p3) in L4.
    destruct (Props.matches_somewhere script_block s0) eqn:E1.
    { pose proof (TextFacts.re_sub_shortens _ _ script_block_productive E1)
        as S1. fold p1 in S1. lia. }
    assert (P1 : p1 = s0)
      by (apply TextFacts.re_sub_del_no_match; exact E1).
    destruct (Props.matches_somewhere javascript_scheme s0) eqn:E2.
    { rewrite <- P1 in E2.
      pose proof (TextFacts.re_sub_shortens _ _
                    javascript_scheme_productive E2) as S2. fold p2 in S2. lia. }
    assert (P2 : p2 = s0).
    { unfold p2. rewrite P1.
      apply TextFacts.re_sub_del_no_match; exact E2. }
    destruct (Props.matches_somewhere (event_handler dq) s0) eqn:E3.
    { rewrite <- P2 in E3.
      pose proof (TextFacts.re_sub_shortens _ _
                    (event_handler_productive dq) E3) as S3. fold p3 in S3. lia. }
    assert (P3 : p3 = s0).
    { unfold p3. rewrite P2.
      apply TextFacts.re_sub_del_no_match; exact E3. }
    cbn in H. rewrite <- P3 in H.
    pose proof (TextFacts.re_sub_shortens _ _
                  (event_handler_productive "'") H) as S4.
    rewrite P3 in S4 at 2. exact S4. }
  exists (to_string (sanitize (of_string fix_code))).
  split.
  - unfold validate_fix.
    destruct fix_code as [|c rest]; [cbn in Hshort; lia|].
    destruct (String.eqb_spec
                (to_string (sanitize (of_string (String c rest))))
                (String c rest)) as [E|E]; [|reflexivity].
    exfalso. apply (f_equal of_string) in E.
    rewrite TextFacts.of_to_string in E. rewrite E in Hshort. lia.
  - now rewrite TextFacts.length_to_string, TextFacts.length_of_string.
Qed.

(** The scenario of the specification: the handler of
    [<div onclick=Q evil() Q>Buy</div>] is removed and the payload is
    marked. *)
Example validate_fix_onclick :
  validate_fix ("<div onclick=" ++ dqs ++ "evil()" ++ dqs ++ ">Buy</div>")
  = "<div>Buy</div>" ++ marker.
Proof. vm_compute. reflexivity. Qed.

(** C6. Each pattern is deleted in one pass from left to right and the
    text that the deletions join is not looked at again: the payloads below
    come back holding [javascript:], a script block and an [onclick]
    handler. *)
Theorem validate_fix_leaves_rejoined_patterns :
  let nested_scheme := "javajavascript:script:" in
  let nested_script := "<scr<script>x</script>ipt>alert(1)</script>" in
  let nested_handler :=
    "<a on onx=" ++ dqs ++ dqs ++ "click=" ++ dqs ++ "evil()" ++ dqs ++ ">" in
  validate_fix nested_scheme = "javascript:" ++ marker
  /\ Props.has_javascript_scheme (validate_fix nested_scheme) = true
  /\ validate_fix nested_script = "<script>alert(1)</script>" ++ marker
  /\ Props.has_script_block (validate_fix nested_script) = true
  /\ validate_fix nested_handler
     = "<a onclick=" ++ dqs ++ "evil()" ++ dqs ++ ">" ++ marker
  /\ Props.has_event_handler (validate_fix nested_handler) = true.
Proof. cbv zeta. repeat split; vm_compute; reflexivity. Qed.

End OutputGuardFacts.

(** ** The input guard *)

Module InputGuardFacts.
Import Model InputGuard.
Local Open Scope string_scope.







End InputGuardFacts.

(** ** The store *)

Module StoreFacts.
Import Model.

(** Allocation hands out the next references in order, keeps the objects
    that exist and stores the new ones. *)
Lemma alloc_list_spec (l : list issue) (h : store) :
  next (fst (alloc_list l h)) = next h + List.length l
  /\ snd (alloc_list l h) = seq (next h) (List.length l)
  /\ (forall k, k < next h -> obj (fst (alloc_list l h)) k = obj h k)
  /\ map (obj (fst (alloc_list l h))) (snd (alloc_list l h)) = l.
Proof.
  revert h. induction l as [|i rest IH]; intros h.
  - cbn. repeat split; try lia. 
  - cbn [alloc_list]. unfold alloc.
    set (h1 := Store (S (next h))
                     (fun l' => if Nat.eqb l' (next h) then i else obj h l')).
    specialize (IH h1).
    destruct (alloc_list rest h1) as [h2 rs] eqn:E.
    cbn [fst snd] in *. destruct IH as (Hn & Hs & Hk & Hm).
    cbn [next h1] in Hn, Hs, Hk. repeat split.
    + cbn [List.length]. subst h1. cbn in Hn. lia.
    + cbn [List.length seq]. subst h1. cbn in Hs. now rewrite Hs.
    + intros k Hlt. rewrite Hk by (subst h1; cbn; lia).
      subst h1. cbn. destruct (Nat.eqb_spec k (next h)); [lia|reflexivity].
    + cbn [map]. rewrite Hm. f_equal.
      rewrite Hk by (subst h1; cbn; lia).
      subst h1. cbn. now rewrite Nat.eqb_refl.
Qed.

Lemma alloc_list_deref (l : list issue) (h : store) :
  Workflow.deref (fst (alloc_list l h)) (Some (snd (alloc_list l h))) = l.
Proof. apply alloc_list_spec. Qed.

Lemma alloc_list_nil (h : store) : alloc_list [] h = (h, []).
Proof. reflexivity. Qed.

End StoreFacts.

(** ** The interaction analyzer *)

Module InteractionFacts.
Import Model Nodes.
Local Open Scope string_scope.

Lemma mem_In (x : string) (l : list string) : mem x l = true <-> In x l.
Proof.
  unfold mem. rewrite existsb_exists. split.
  - intros [y [Hy E]]. apply String.eqb_eq in E. now subst.
  - intros H. exists x. split; [exact H | apply String.eqb_refl].
Qed.

(** The scan for a duplicate finds none when the identifiers of the trace
    are pairwise different and none was seen before. *)
Lemma first_duplicate_none (log : list focus_entry) :
  forall ids_seen,
    NoDup (Props.element_ids log) ->
    (forall x, In x (Props.element_ids log) -> ~ In x ids_seen) ->
    first_duplicate ids_seen log = None.
Proof.
  induction log as [|item rest IH]; intros ids_seen Hnd Hfresh;
    [reflexivity|].
  cbn [first_duplicate]. cbn [Props.element_ids flat_map] in Hnd, Hfresh.
  destruct (fe_id item) as [i|]; [|now apply IH].
  destruct (nonempty i); [|now apply IH].
  cbn [app] in Hnd, Hfresh. inversion Hnd as [|? ? Hni Hnd']; subst.
  destruct (mem i ids_seen) eqn:Em.
  - apply mem_In in Em. exfalso. apply (Hfresh i); [now left | exact Em].
  - apply IH; [exact Hnd'|].
    intros x Hx [Hs|Hs].
    + subst. contradiction.
    + apply (Hfresh x); [now right | exact Hs].
Qed.

Lemma filter_none (A : Type) (f : A -> bool) (l : list A) :
  forallb (fun x => negb (f x)) l = true -> filter f l = [].
Proof.
  induction l as [|x l IH]; [reflexivity|].
  cbn. destruct (f x); cbn; [discriminate | exact IH].
Qed.

(** C8, as the code has it. For every keyboard trace of length 3 in which
    no element identifier occurs twice, the body element is focused at most
    once and no entry is a non-interactive element (DIV, SPAN, P, H1 to
    H6), the interaction analyzer produces exactly one issue, the one of
    the limited-keyboard-access rule; [interaction_node] stores it as the
    only interaction issue of the state. *)
Theorem interaction_short_trace
        (log : list focus_entry) (h : store) (state : AuditState) :
  List.length log = 3 ->
  NoDup (Props.element_ids log) ->
  Props.body_focused log <= 1 ->
  forallb (fun item => negb (non_interactive item)) log = true ->
  tab_log state = Some log ->
  interaction_issues_of log = [limited_access_issue 3]
  /\ rule (limited_access_issue 3) = Some "limited-keyboard-access"
  /\ exists h' u,
       interaction_node h state = Some (h', u)
       /\ Workflow.deref h' (interaction_issues u) = [limited_access_issue 3].
Proof.
  intros Hlen Hnd Hbody Hni Hlog.
  assert (Hissues : interaction_issues_of log = [limited_access_issue 3]).
  { unfold interaction_issues_of.
    destruct log as [|e0 log']; [discriminate|].
    set (log := e0 :: log') in *.
    unfold Props.body_focused in Hbody.
    apply Nat.nlt_ge, Nat.ltb_nlt in Hbody. rewrite Hbody.
    rewrite (filter_none _ _ _ Hni).
    rewrite Hlen. cbn [Nat.ltb Nat.leb].
    rewrite (first_duplicate_none log []); [reflexivity | exact Hnd |].
    intros x _ []. }
  split; [exact Hissues|]. split; [reflexivity|].
  unfold interaction_node. rewrite Hlog. cbn [or_default]. rewrite Hissues.
  pose proof (StoreFacts.alloc_list_deref [limited_access_issue 3] h) as Hd.
  destruct (alloc_list [limited_access_issue 3] h) as [h' refs].
  exists h'. eexists. split; [reflexivity|]. exact Hd.
Qed.

(** The theorem at a trace of a link, a button and an input field. *)
Lemma interaction_short_trace_witness :
  let log := [ Focus (Some "A") (Some "Home") (Some "nav-home");
               Focus (Some "BUTTON") (Some "Search") (Some "search");
               Focus (Some "INPUT") (Some EmptyString) None ] in
  interaction_issues_of log = [limited_access_issue 3].
Proof.
  cbv zeta.
  refine (proj1 (interaction_short_trace _ empty_store
                   (State None None None None None None
                          (Some _) None None None None None)
                   _ _ _ _ _)).
  - reflexivity.
  - cbn. repeat constructor; cbn; intuition discriminate.
  - cbn. lia.
  - reflexivity.
  - reflexivity.
Defined.

(** C8, as the claim has it, fails: a trace of length 3 without duplicate
    identifiers and without the body element, whose first entry is a DIV,
    yields two issues. *)
Lemma interaction_trace_with_div :
  ~ (forall log,
        List.length log = 3 ->
        NoDup (Props.element_ids log) ->
        Props.body_focused log <= 1 ->
        exists i, interaction_issues_of log = [i]
                  /\ rule i = Some "limited-keyboard-access").
Proof.
  intros H.
  destruct (H [ Focus (Some "DIV") (Some "Menu") (Some "menu");
                Focus (Some "A") (Some "Home") (Some "nav-home");
                Focus (Some "BUTTON") (Some "Search") (Some "search") ])
    as [i [E _]].
  - reflexivity.
  - cbn. repeat constructor; cbn; intuition discriminate.
  - cbn. lia.
  - vm_compute in E. discriminate E.
Qed.

Example interaction_trace_with_div_rules :
  map rule
      (interaction_issues_of
         [ Focus (Some "DIV") (Some "Menu") (Some "menu");
           Focus (Some "A") (Some "Home") (Some "nav-home");
           Focus (Some "BUTTON") (Some "Search") (Some "search") ])
  = [ Some "non-interactive-tabindex"; Some "limited-keyboard-access" ].
Proof. reflexivity. Qed.

End InteractionFacts.

(** ** The Grouper *)

Module CriticFacts.
Import Model Critic.
Local Open Scope string_scope.

Lemma has_key_lookup (k : string) (g : groups) :
  has_key k g = match WcagMapper.lookup k g with Some _ => true | None => false end.
Proof.
  induction g as [|[k' v] g IH]; [reflexivity|].
  cbn. destruct (String.eqb k k'); [reflexivity | exact IH].
Qed.

Lemma lookup_update_same (k : string) (f : issue -> issue) (g : groups) :
  WcagMapper.lookup k (update k f g) = option_map f (WcagMapper.lookup k g).
Proof.
  induction g as [|[k' v] g IH]; [reflexivity|].
  cbn. destruct (String.eqb k k') eqn:E; cbn; rewrite E;
    [reflexivity | exact IH].
Qed.

Lemma lookup_update_other (k k' : string) (f : issue -> issue) (g : groups) :
  k' <> k -> WcagMapper.lookup k' (update k f g) = WcagMapper.lookup k' g.
Proof.
  intros Hne. induction g as [|[k0 v] g IH]; [reflexivity|].
  cbn. destruct (String.eqb_spec k k0) as [->|Hk].
  - cbn. destruct (String.eqb_spec k' k0); [contradiction | reflexivity].
  - cbn. destruct (String.eqb k' k0); [reflexivity | exact IH].
Qed.

Lemma lookup_app_new (k k' : string) (v : issue) (g : groups) :
  WcagMapper.lookup k' (g ++ [(k, v)])%list
  = match WcagMapper.lookup k' g with
    | Some x => Some x
    | None => if String.eqb k' k then Some v else None
    end.
Proof.
  induction g as [|[k0 v0] g IH]; [reflexivity|].
  cbn. destruct (String.eqb k' k0); [reflexivity | exact IH].
Qed.

Lemma keys_update (k : string) (f : issue -> issue) (g : groups) :
  map fst (update k f g) = map fst g.
Proof.
  induction g as [|[k0 v] g IH]; [reflexivity|].
  cbn. destruct (String.eqb k k0); cbn; [reflexivity | now rewrite IH].
Qed.

Lemma lookup_None_keys (k : string) (g : groups) :
  WcagMapper.lookup k g = None -> ~ In k (map fst g).
Proof.
  induction g as [|[k0 v] g IH]; [intros _ []|].
  cbn. destruct (String.eqb_spec k k0) as [->|Hk]; [discriminate|].
  intros H [E|Hin]; [congruence | now apply IH].
Qed.

Lemma In_lookup (k : string) (v : issue) (g : groups) :
  NoDup (map fst g) -> In (k, v) g -> WcagMapper.lookup k g = Some v.
Proof.
  induction g as [|[k0 v0] g IH]; [intros _ []|].
  cbn. intros Hnd [E|Hin].
  - injection E as -> ->. now rewrite String.eqb_refl.
  - inversion Hnd as [|? ? Hni Hnd']; subst.
    destruct (String.eqb_spec k k0) as [->|Hk].
    + exfalso. apply Hni. change k0 with (fst (k0, v)). now apply in_map.
    + now apply IH.
Qed.

Lemma occurrences_snoc (k : string) (fs : list finding) (f : finding) :
  Props.occurrences k (fs ++ [f])%list
  = (Props.occurrences k fs
     + (if String.eqb (Props.rule_of f) k then Props.affected f else 0))%Z.
Proof.
  induction fs as [|f0 fs IH]; cbn [app Props.occurrences]; [lia|].
  rewrite IH. lia.
Qed.

Lemma account_fields (f : finding) (g : issue) :
  rule (account f g) = rule g
  /\ total_occurrences (account f g)
     = Some (or_default 0%Z (total_occurrences g) + Props.affected f)%Z.
Proof.
  unfold account.
  destruct (Nat.ltb _ _); cbn; split; reflexivity.
Qed.

Lemma step_grouped (seen : list finding) (g : groups) (f : finding) :
  Props.grouped_so_far seen g ->
  Props.grouped_so_far (seen ++ [f])%list (step g f).
Proof.
  intros [Hnd Hinv]. unfold step.
  fold (Props.rule_of f). set (r := Props.rule_of f).
  rewrite has_key_lookup.
  split.
  - rewrite keys_update.
    destruct (WcagMapper.lookup r g) eqn:E; [exact Hnd|].
    rewrite map_app. cbn.
    apply NoDup_app_remove_l with (l := []). cbn.
    apply NoDup_rev in Hnd.
    rewrite <- (rev_involutive (map fst g ++ [r])).
    apply NoDup_rev. rewrite rev_app_distr. cbn.
    constructor; [|exact Hnd].
    rewrite <- in_rev. now apply lookup_None_keys.
  - intros k. rewrite occurrences_snoc. fold r.
    destruct (String.eqb_spec r k) as [<-|Hk].
    + rewrite lookup_update_same.
      pose proof (Hinv r) as Hr.
      destruct (WcagMapper.lookup r g) as [v|] eqn:E.
      * rewrite E. cbn [option_map].
        destruct (account_fields f v) as [-> ->].
        destruct Hr as [Hrule Htot]. rewrite Htot. cbn [or_default].
        split; [exact Hrule | reflexivity].
      * rewrite lookup_app_new, E, String.eqb_refl. cbn [option_map].
        destruct (account_fields f (new_group r f)) as [-> ->].
        cbn [new_group rule total_occurrences or_default].
        rewrite Hr. split; reflexivity.
    + rewrite lookup_update_other by congruence.
      pose proof (Hinv k) as Hkk.
      destruct (WcagMapper.lookup r g) eqn:E.
      * destruct (WcagMapper.lookup k g); [|lia].
        destruct Hkk as [? ->]. split; [assumption | f_equal; lia].
      * rewrite lookup_app_new.
        destruct (WcagMapper.lookup k g).
        -- destruct Hkk as [? ->]. split; [assumption | f_equal; lia].
        -- destruct (String.eqb_spec k r); [congruence | lia].
Qed.

Lemma fold_grouped (fs seen : list finding) (g : groups) :
  Props.grouped_so_far seen g ->
  Props.grouped_so_far (seen ++ fs)%list (fold_left step fs g).
Proof.
  revert seen g. induction fs as [|f fs IH]; intros seen g H.
  - now rewrite app_nil_r.
  - cbn [fold_left].
    replace (seen ++ f :: fs)%list with ((seen ++ [f]) ++ fs)%list
      by (now rewrite <- app_assoc).
    apply IH. now apply step_grouped.
Qed.

(** X10. The counter of a grouped issue is the sum, over the findings of
    its rule, of the affected-node count, 1 standing for an absent
    count. *)
Lemma critique_issues_total_occurrences (fs : list finding) (v : issue) :
  In v (critique_issues fs) ->
  exists k, rule v = Some k
            /\ total_occurrences v = Some (Props.occurrences k fs).
Proof.
  unfold critique_issues. intros Hin.
  apply in_map_iff in Hin as [[k v'] [E Hin]]. cbn in E. subst v'.
  assert (H : Props.grouped_so_far ([] ++ fs)%list (fold_left step fs [])).
  { apply fold_grouped. split; [constructor | intros k'; reflexivity]. }
  destruct H as [Hnd Hinv]. cbn [app] in Hinv.
  specialize (Hinv k). rewrite (In_lookup _ _ _ Hnd Hin) in Hinv.
  exists k. exact Hinv.
Qed.

Lemma critique_issues_total_occurrences_witness :
  exists k,
    rule (nth 0 (critique_issues [ Props.finding_of "label" 2;
                                   Props.finding_of "label" 1 ])
              empty_issue) = Some k
    /\ total_occurrences
         (nth 0 (critique_issues [ Props.finding_of "label" 2;
                                   Props.finding_of "label" 1 ])
              empty_issue)
       = Some (Props.occurrences k [ Props.finding_of "label" 2;
                                    Props.finding_of "label" 1 ]).
Proof.
  apply (critique_issues_total_occurrences
           [ Props.finding_of "label" 2; Props.finding_of "label" 1 ]).
  vm_compute. left. reflexivity.
Defined.

(** C5. One finding with six evidence nodes gives a grouped issue with six
    snippets, and two findings of one rule with four nodes each give
    eight: the test on the length comes before the whole list of a finding
    is appended, and nothing is cut back to five.  The counter is the sum
    of the affected-node counts (1 for each finding here). *)
Theorem critique_issues_exceeds_cap :
  let one := [ Props.finding_of "image-alt" 6 ] in
  let two := [ Props.finding_of "image-alt" 4;
               Props.finding_of "image-alt" 4 ] in
  map (fun g => option_map (@List.length node) (code_snippets g))
      (critique_issues one) = [ Some 6 ]
  /\ map total_occurrences (critique_issues one) = [ Some 1%Z ]
  /\ map (fun g => option_map (@List.length node) (code_snippets g))
         (critique_issues two) = [ Some 8 ]
  /\ map total_occurrences (critique_issues two) = [ Some 2%Z ].
Proof. cbv zeta. repeat split; vm_compute; reflexivity. Qed.

End CriticFacts.

(** ** The two-tier classifier *)

Module FastCriticFacts.
Import Model FastCritic.
Local Open Scope string_scope.

Create HintDb subseq discriminated.
#[local] Hint Constructors Props.subseq : subseq.

Lemma subseq_refl (A : Type) (l : list A) : Props.subseq l l.
Proof. induction l; auto with subseq. Qed.

#[local] Hint Resolve subseq_refl : subseq.

Lemma keep_from_subseq (A : Type) (keep : list json) (l : list A) :
  forall i, Props.subseq (keep_from keep i l) l.
Proof.
  induction l as [|x l IH]; intros i; cbn; [constructor|].
  destruct (in_set (Z.of_nat i) keep); auto with subseq.
Qed.

(** Tier 1 only leaves findings out. *)
Lemma heuristic_filter_subseq (issues : list finding) :
  Props.subseq (heuristic_filter issues) issues.
Proof.
  unfold heuristic_filter. generalize (@nil string).
  induction issues as [|x l IH]; intros seen; cbn; [constructor|].
  repeat match goal with
         | |- context [if ?b then _ else _] => destruct b
         end; auto with subseq.
Qed.

(** Tier 2 only leaves findings out. *)
Lemma model_based_filter_subseq (w : World) (issues : list finding) :
  Props.subseq (model_based_filter w issues) issues.
Proof.
  unfold model_based_filter.
  destruct (negb (USE_MODEL_SLM w) || Nat.eqb (List.length issues) 0);
    [auto with subseq|].
  destruct (slm_model w issues) as [| |v]; auto with subseq.
  destruct v; auto with subseq.
  destruct (to_set _); [apply keep_from_subseq | auto with subseq].
Qed.

(** X26. When the call of the oracle fails, or its answer is not JSON, or
    is JSON but not an object, Tier 2 returns its input as it is. *)
Lemma model_based_filter_failure (w : World) (issues : list finding) :
  slm_model w issues = CallFailed
  \/ slm_model w issues = NotJson
  \/ (exists v, slm_model w issues = Json v
                /\ forall fields, v <> JObj fields) ->
  model_based_filter w issues = issues.
Proof.
  unfold model_based_filter.
  destruct (negb (USE_MODEL_SLM w) || Nat.eqb (List.length issues) 0);
    [reflexivity|].
  intros [->|[->|[v [-> Hv]]]]; try reflexivity.
  destruct v; try reflexivity. now destruct (Hv fields).
Qed.

Lemma model_based_filter_failure_witness :
  model_based_filter (Props.slm_world NotJson)
                     [ Props.finding_of "image-alt" 1;
                       Props.finding_of "label" 2 ]
  = [ Props.finding_of "image-alt" 1; Props.finding_of "label" 2 ].
Proof.
  apply (model_based_filter_failure (Props.slm_world NotJson)).
  right. left. reflexivity.
Defined.

(** C3. An answer that is a JSON object without [keep_indices], or with
    [keep_indices] that is a string, does not conform to the schema, and
    Tier 2 then returns the empty list instead of the Tier-1 output: the
    default of the lookup is the empty list, and the characters of a string
    are no indices. *)
Theorem model_based_filter_drops_all_on_other_object :
  let tier1 := heuristic_filter [ Props.finding_of "image-alt" 1;
                                  Props.finding_of "label" 2 ] in
  tier1 = [ Props.finding_of "image-alt" 1; Props.finding_of "label" 2 ]
  /\ model_based_filter (Props.slm_world (Json (JObj []))) tier1 = []
  /\ model_based_filter
       (Props.slm_world (Json (JObj [("keep", JList [JInt 0; JInt 1])])))
       tier1 = []
  /\ model_based_filter
       (Props.slm_world (Json (JObj [("keep_indices", JStr "all")])))
       tier1 = []
  /\ model_based_filter
       (Props.slm_world (Json (JObj [("keep_indices", JList [JInt 1])])))
       tier1 = [ Props.finding_of "label" 2 ].
Proof. cbv zeta. repeat split; vm_compute; reflexivity. Qed.

End FastCriticFacts.

(** ** The Fixer *)

Module FixerFacts.
Import Model Nodes.
Local Open Scope string_scope.

Lemma same_identity_refl (i : issue) : Props.same_identity i i.
Proof. repeat split. Qed.

Lemma same_identity_trans (i j k : issue) :
  Props.same_identity i j -> Props.same_identity j k -> Props.same_identity i k.
Proof. unfold Props.same_identity. intuition congruence. Qed.

Lemma smart_lookup_identity (els : list element) (i : issue) :
  Props.same_identity (snd (smart_lookup els i)) i.
Proof.
  unfold smart_lookup.
  repeat match goal with
         | |- context [if ?b then _ else _] => destruct b
         | |- context [match find_element ?t ?e with _ => _ end] =>
             destruct (find_element t e)
         end; cbn [snd]; repeat split.
Qed.

Section Loop.

Variable w : World.
Variable els : list element.

Lemma fix_issue_identity (calls : nat) (i : issue) :
  Props.same_identity (fix_issue w els calls i) i.
Proof.
  unfold fix_issue.
  pose proof (smart_lookup_identity els i) as H.
  destruct (smart_lookup els i) as [snippet i1]. cbn [snd] in H.
  destruct (fixer_llm w calls (user_prompt i1 snippet));
    (eapply same_identity_trans; [|exact H]); repeat split.
Qed.


(** The loop appends every reference, in order, to the report it was
    given. *)
Lemma fixer_loop_report (all_issues : list loc) :
  forall calls h final_report,
    snd (fixer_loop w els all_issues calls h final_report)
    = (final_report ++ all_issues)%list.
Proof.
  induction all_issues as [|l rest IH]; intros calls h final_report.
  - cbn. now rewrite app_nil_r.
  - cbn [fixer_loop].
    destruct (already_fixed (obj h l)); rewrite IH, <- app_assoc;
      reflexivity.
Qed.

(** The loop keeps the identity of every object of the store. *)
Lemma fixer_loop_identity (all_issues : list loc) :
  forall calls h final_report l,
    Props.same_identity
      (obj (fst (fixer_loop w els all_issues calls h final_report)) l)
      (obj h l).
Proof.
  induction all_issues as [|l0 rest IH]; intros calls h final_report l.
  - apply same_identity_refl.
  - cbn [fixer_loop].
    destruct (already_fixed (obj h l0)); [apply IH|].
    eapply same_identity_trans; [apply IH|].
    unfold write. cbn [obj].
    destruct (Nat.eqb_spec l l0) as [->|_];
      [apply fix_issue_identity | apply same_identity_refl].
Qed.


End Loop.

(** C9. The Fixer neither drops nor duplicates an issue: for every world,
    store and state, [fixer_node] returns, and its final report is the list
    of the accumulated references, those of the critiqued (syntax) issues,
    then the visual, the semantic and the interaction issues, each at its
    place once; the objects they denote keep their rule, category,
    description and the other fields the Fixer does not own. *)
Theorem fixer_node_report_is_concatenation
        (w : World) (h : store) (state : AuditState) :
  exists h' u,
    fixer_node w h state = Some (h', u)
    /\ final_report u
       = Some (or_default [] (critiqued_issues state)
               ++ or_default [] (vision_issues state)
               ++ or_default [] (semantic_issues state)
               ++ or_default [] (interaction_issues state))%list
    /\ List.length (Workflow.deref h' (final_report u))
       = List.length (or_default [] (critiqued_issues state))
         + List.length (or_default [] (vision_issues state))
         + List.length (or_default [] (semantic_issues state))
         + List.length (or_default [] (interaction_issues state))
    /\ forall l, Props.same_identity (obj h' l) (obj h l).
Proof.
  unfold fixer_node.
  set (els := interactive _).
  pose proof (fixer_loop_report w els (all_issues_of state) 0 h []) as Hr.
  pose proof (fixer_loop_identity w els (all_issues_of state) 0 h []) as Hi.
  destruct (fixer_loop w els (all_issues_of state) 0 h []) as [h' report].
  cbn [fst snd] in Hr, Hi. cbn [app] in Hr. subst report.
  exists h'. eexists. split; [reflexivity|].
  cbn [final_report]. split; [reflexivity|]. split; [|exact Hi].
  unfold Workflow.deref, all_issues_of. cbn [or_default].
  rewrite length_map, !length_app. lia.
Qed.

End FixerFacts.

(** ** The pipeline *)

Module WorkflowFacts.
Import Model Nodes Workflow.
Local Open Scope string_scope.

(** What the Input Guard returns is an error alone or the URL alone. *)
Lemma validate_input_shape (w : World) (state : AuditState) :
  (exists msg, InputGuard.validate_input w state
               = InputGuard.error_update msg)
  \/ (exists u, InputGuard.validate_input w state = InputGuard.url_update u).
Proof.
  unfold InputGuard.validate_input.
  repeat match goal with
         | |- context [if ?b then _ else _] => destruct b
         | |- context [match urlparse_netloc ?w ?u with _ => _ end] =>
             destruct (urlparse_netloc w u)
         end; eauto.
Qed.

Lemma fast_critique_nil (w : World) : FastCritic.fast_critique w [] = [].
Proof.
  unfold FastCritic.fast_critique. cbn.
  now rewrite andb_false_r.
Qed.



(** The verdict of the Input Guard does not reach the scanner: the guard
    returns its error under a key that the schema of the graph does not
    declare, so the state after the guard is the state that main.py
    built, whether the guard accepted the URL or not. *)
Lemma input_guard_verdict_is_dropped (w : World) (request_url : string) :
  and_then (input_guard_node w)
           (Some (empty_store, initial_state request_url))
  = Some (empty_store, initial_state request_url).
Proof.
  unfold input_guard_node, and_then, InputGuard.validate_input, initial_state.
  cbn [url or_default].
  repeat match goal with
         | |- context [if ?b then _ else _] => destruct b
         | |- context [match urlparse_netloc ?w ?u with _ => _ end] =>
             destruct (urlparse_netloc w u)
         end; reflexivity.
Qed.


(** C2. The Input Guard rejects the blocklisted host, and the run goes on
    as if it had not: on a page with an image without alternative text
    and three focusable elements the scanner scans the rejected URL, the
    final state carries no error, and the final report holds a syntax and
    an interaction issue.  [scanner_node] tests the key [error], which
    state.py does not declare and the graph therefore does not hand
    on. *)
Theorem blocklisted_url_is_scanned :
  let w := Props.page_world in
  let request := initial_state "https://malicious-site.com" in
  let final := audit_graph w request in
  error (InputGuard.validate_input w request)
  = Some "Domain malicious-site.com is in the blocklist."
  /\ option_map (fun hs => error (snd hs)) final = Some None
  /\ option_map (fun hs => url (snd hs)) final
     = Some (Some "https://malicious-site.com")
  /\ map rule (report_of final)
     = [ Some "image-alt"; Some "limited-keyboard-access" ]
  /\ map category (report_of final)
     = [ Some "syntax"; Some "interaction" ]
  /\ option_map (fun hs => List.length
                             (or_default [] (critiqued_issues (snd hs))))
                final = Some 1
  /\ option_map (fun hs => List.length
                             (or_default [] (interaction_issues (snd hs))))
                final = Some 1
  /\ scanner_node w empty_store
       (merge request (InputGuard.validate_input w request))
     = scanner_node w empty_store request.
Proof. cbv zeta. repeat split; vm_compute; reflexivity. Qed.

(** C1. The semantic oracle proposes a script block as the fix of a link;
    [semantic_node] stores it as the fix of the issue, [fixer_node] finds
    the issue fixed and passes it on, and the final report holds the
    payload as the oracle gave it, although the sanitizer would have
    changed it. *)
Theorem semantic_fix_reaches_report_unsanitized :
  let payload := "<script>alert(1)</script>" in
  let report :=
    report_of (audit_graph (Props.semantic_world payload)
                           (initial_state "https://example.com")) in
  map category report = [ Some "semantic" ]
  /\ map ai_fixed_code report = [ Some payload ]
  /\ OutputGuard.validate_fix payload = OutputGuard.marker
  /\ OutputGuard.validate_fix payload <> payload.
Proof.
  cbv zeta. repeat split; try (vm_compute; reflexivity).
  vm_compute. discriminate.
Qed.

End WorkflowFacts.

(** ** More on the sanitizer *)

Module SanitizerFacts.
Import Text OutputGuard.
Local Open Scope string_scope.

(** X1. [validate_fix] appends its marker exactly when one of its passes
    finds something to delete: the result is then a text shorter than the
    input, followed by the marker; otherwise it is the input. *)
Theorem validate_fix_marks_exactly_what_it_changes (fix_code : string) :
  if Props.has_script_block fix_code
     || Props.has_javascript_scheme fix_code
     || Props.has_event_handler fix_code
  then exists cleaned,
         validate_fix fix_code = (cleaned ++ marker)%string
         /\ String.length cleaned < String.length fix_code
  else validate_fix fix_code = fix_code.
Proof.
  destruct (Props.has_script_block fix_code
            || Props.has_javascript_scheme fix_code
            || Props.has_event_handler fix_code) eqn:E.
  - apply OutputGuardFacts.validate_fix_unclean_marked. exact E.
  - apply orb_false_iff in E as [E E3]. apply orb_false_iff in E as [E1 E2].
    apply OutputGuardFacts.validate_fix_clean_unchanged; assumption.
Qed.

End SanitizerFacts.

(** ** More on the two tiers of the filter *)

Module TierFacts.
Import Model FastCritic.
Local Open Scope string_scope.

Lemma subseq_trans (A : Type) (l2 l3 : list A) :
  Props.subseq l2 l3 -> forall l1, Props.subseq l1 l2 -> Props.subseq l1 l3.
Proof.
  induction 1 as [| x a b H IH | x a b H IH]; intros l1 H1.
  - exact H1.
  - constructor. apply IH. exact H1.
  - inversion H1; subst.
    + constructor. apply IH. assumption.
    + constructor 3. apply IH. assumption.
Qed.

(** X2. Whatever the oracle of Tier 2 answers, [fast_critique] returns
    findings of its input in their order: it adds none and reorders
    none. *)
Theorem fast_critique_subseq (w : World) (issues : list finding) :
  Props.subseq (fast_critique w issues) issues.
Proof.
  unfold fast_critique.
  destruct (USE_MODEL_SLM w && (0 <? List.length (heuristic_filter issues))%nat).
  - apply subseq_trans with (l2 := heuristic_filter issues).
    + apply FastCriticFacts.heuristic_filter_subseq.
    + apply FastCriticFacts.model_based_filter_subseq.
  - apply FastCriticFacts.heuristic_filter_subseq.
Qed.

Lemma heuristic_loop_keepable (issues : list finding) :
  forall seen f, In f (heuristic_loop seen issues) -> Specs.keepable f = true.
Proof.
  induction issues as [|g rest IH]; intros seen f H; [destruct H|].
  cbn [heuristic_loop] in H. unfold Specs.keepable.
  destruct (String.eqb (or_default EmptyString (f_id g)) "color-contrast"
            && String.eqb (or_default EmptyString (f_impact g)) "minor") eqn:E1;
    [eauto|].
  destruct (String.eqb (or_default EmptyString (f_id g)) "region") eqn:E2;
    [eauto|].
  destruct (nonempty (or_default EmptyString (f_selector g))
            && mem (or_default EmptyString (f_selector g)) seen) eqn:E3;
    [eauto|].
  destruct (negb (nonnil (or_default [] (f_nodes g)))
            && negb (nonnil (or_default [] (f_specific_nodes g)))) eqn:E4;
    [eauto|].
  destruct H as [<- | H]; [|eauto].
  rewrite E1, E2. cbn [negb andb].
  destruct (nonnil (or_default [] (f_nodes g))); [reflexivity|].
  destruct (nonnil (or_default [] (f_specific_nodes g))); [reflexivity|].
  discriminate E4.
Qed.

Lemma mem_false (x : string) (l : list string) : mem x l = false -> ~ In x l.
Proof.
  intros H Hin. apply InteractionFacts.mem_In in Hin. congruence.
Qed.

Lemma heuristic_loop_selectors (issues : list finding) :
  forall seen,
    NoDup (Specs.selectors (heuristic_loop seen issues))
    /\ forall x, In x (Specs.selectors (heuristic_loop seen issues)) ->
                 ~ In x seen.
Proof.
  induction issues as [|g rest IH]; intros seen.
  - split; [constructor | intros x []].
  - cbn [heuristic_loop].
    destruct (String.eqb (or_default EmptyString (f_id g)) "color-contrast"
              && String.eqb (or_default EmptyString (f_impact g)) "minor");
      [apply IH|].
    destruct (String.eqb (or_default EmptyString (f_id g)) "region");
      [apply IH|].
    destruct (nonempty (or_default EmptyString (f_selector g))
              && mem (or_default EmptyString (f_selector g)) seen) eqn:E3;
      [apply IH|].
    destruct (negb (nonnil (or_default [] (f_nodes g)))
              && negb (nonnil (or_default [] (f_specific_nodes g))));
      [apply IH|].
    unfold Specs.selectors. cbn [map filter].
    fold (Specs.selectors
            (heuristic_loop
               (if nonempty (or_default EmptyString (f_selector g))
                then or_default EmptyString (f_selector g) :: seen
                else seen) rest)).
    destruct (nonempty (or_default EmptyString (f_selector g))) eqn:En.
    + cbn [andb] in E3.
      destruct (IH (or_default EmptyString (f_selector g) :: seen))
        as [Hnd Hout].
      split.
      * constructor; [|exact Hnd].
        intros Hin. apply (Hout _ Hin). left. reflexivity.
      * intros x [<- | Hin].
        -- apply mem_false. exact E3.
        -- intros Hs. apply (Hout _ Hin). right. exact Hs.
    + apply IH.
Qed.

(** X3. Tier 1 keeps no minor contrast finding, no finding of the rule
    region and no finding without nodes, and no two of the findings it
    keeps carry the same selector. *)
Theorem heuristic_filter_sound (issues : list finding) :
  forallb Specs.keepable (heuristic_filter issues) = true
  /\ NoDup (Specs.selectors (heuristic_filter issues)).
Proof.
  split.
  - apply forallb_forall. apply heuristic_loop_keepable.
  - apply heuristic_loop_selectors.
Qed.

Lemma heuristic_loop_idempotent (issues : list finding) :
  forall seen,
    heuristic_loop seen (heuristic_loop seen issues)
    = heuristic_loop seen issues.
Proof.
  induction issues as [|g rest IH]; intros seen; [reflexivity|].
  cbn [heuristic_loop].
  destruct (String.eqb (or_default EmptyString (f_id g)) "color-contrast"
            && String.eqb (or_default EmptyString (f_impact g)) "minor") eqn:E1;
    [apply IH|].
  destruct (String.eqb (or_default EmptyString (f_id g)) "region") eqn:E2;
    [apply IH|].
  destruct (nonempty (or_default EmptyString (f_selector g))
            && mem (or_default EmptyString (f_selector g)) seen) eqn:E3;
    [apply IH|].
  destruct (negb (nonnil (or_default [] (f_nodes g)))
            && negb (nonnil (or_default [] (f_specific_nodes g)))) eqn:E4;
    [apply IH|].
  cbn [heuristic_loop]. rewrite E1, E2, E3, E4. f_equal. apply IH.
Qed.

(** X4. Filtering twice is filtering once. *)
Theorem heuristic_filter_idempotent (issues : list finding) :
  heuristic_filter (heuristic_filter issues) = heuristic_filter issues.
Proof. apply heuristic_loop_idempotent. Qed.

Lemma heuristic_loop_of_scan (vs : list violation) :
  forall seen,
    heuristic_loop seen (map WcagMapper.enrich_with_wcag vs)
    = map WcagMapper.enrich_with_wcag (filter Specs.reportable vs).
Proof.
  induction vs as [|v vs IH]; intros seen; [reflexivity|].
  cbn [map heuristic_loop filter]. unfold Specs.reportable at 1.
  cbn [WcagMapper.enrich_with_wcag f_id f_impact f_selector f_nodes
       f_specific_nodes or_default nonempty andb].
  destruct (String.eqb (v_id v) "color-contrast"
            && String.eqb (v_impact v) "minor");
    cbn [negb andb]; [apply IH|].
  destruct (String.eqb (v_id v) "region"); cbn [negb andb]; [apply IH|].
  destruct (nonnil (v_nodes v)); cbn [negb andb map]; [|apply IH].
  f_equal. apply IH.
Qed.

(** X5. On what the scanner delivers, Tier 1 drops exactly the
    violations of minor contrast, those of the rule region and those
    without nodes: the scanner's findings carry no selector, so none is
    dropped as a duplicate. *)
Theorem heuristic_filter_of_scan (violations : list violation) :
  heuristic_filter (map WcagMapper.enrich_with_wcag violations)
  = map WcagMapper.enrich_with_wcag (filter Specs.reportable violations).
Proof. apply heuristic_loop_of_scan. Qed.

End TierFacts.

(** ** More on the Grouper *)

Module GrouperFacts.
Import Model Critic.
Local Open Scope string_scope.

Lemma mem_has_key (k : string) (g : groups) :
  mem k (map fst g) = has_key k g.
Proof.
  induction g as [|[k' v] g IH]; [reflexivity|].
  cbn. unfold mem in IH. now rewrite IH.
Qed.

Lemma distinct_ext (l : list string) :
  forall s1 s2, (forall x, mem x s1 = mem x s2) ->
                Specs.distinct s1 l = Specs.distinct s2 l.
Proof.
  induction l as [|x l IH]; intros s1 s2 H; [reflexivity|].
  cbn [Specs.distinct]. rewrite (H x).
  destruct (mem x s2); [now apply IH|].
  f_equal. apply IH. intros y. unfold mem. cbn [existsb].
  f_equal. apply H.
Qed.

Lemma distinct_In (l : list string) :
  forall seen x, In x (Specs.distinct seen l) <-> In x l /\ ~ In x seen.
Proof.
  induction l as [|y l IH]; intros seen x; cbn [Specs.distinct].
  - cbn. tauto.
  - destruct (mem y seen) eqn:E.
    + apply InteractionFacts.mem_In in E. rewrite IH. cbn [In].
      split; [tauto|]. intros [[<-|H] Hn]; [contradiction | tauto].
    + assert (Hy : ~ In y seen).
      { intros H. apply InteractionFacts.mem_In in H. congruence. }
      cbn [In]. rewrite IH. cbn [In].
      destruct (string_dec y x) as [<-|Hne]; [tauto|]. tauto.
Qed.

Lemma distinct_NoDup (l : list string) :
  forall seen, NoDup (Specs.distinct seen l).
Proof.
  induction l as [|y l IH]; intros seen; cbn [Specs.distinct].
  - constructor.
  - destruct (mem y seen); [apply IH|].
    constructor; [|apply IH].
    rewrite distinct_In. cbn [In]. tauto.
Qed.

Lemma NoDup_map_Some (A : Type) (l : list A) :
  NoDup l -> NoDup (map Some l).
Proof.
  induction 1 as [|x l Hx Hnd IH]; cbn [map]; constructor; [|exact IH].
  intros Hin. apply in_map_iff in Hin as (y & E & Hy).
  inversion E; subst. contradiction.
Qed.

Lemma keys_step (g : groups) (f : finding) :
  map fst (step g f)
  = (map fst g
     ++ (if has_key (Props.rule_of f) g then [] else [Props.rule_of f]))%list.
Proof.
  unfold step. fold (Props.rule_of f). rewrite CriticFacts.keys_update.
  destruct (has_key (Props.rule_of f) g).
  - now rewrite app_nil_r.
  - now rewrite map_app.
Qed.

Lemma keys_fold (fs : list finding) :
  forall g,
    map fst (fold_left step fs g)
    = (map fst g ++ Specs.distinct (map fst g) (map Props.rule_of fs))%list.
Proof.
  induction fs as [|f fs IH]; intros g.
  - cbn. now rewrite app_nil_r.
  - cbn [fold_left map Specs.distinct]. rewrite IH, keys_step, mem_has_key.
    destruct (has_key (Props.rule_of f) g).
    + now rewrite app_nil_r.
    + rewrite <- app_assoc. cbn [app]. do 2 f_equal.
      apply distinct_ext. intros x. unfold mem.
      rewrite existsb_app. cbn [existsb]. rewrite orb_false_r.
      apply orb_comm.
Qed.

Lemma groups_of (fs : list finding) :
  Props.grouped_so_far fs (fold_left step fs []).
Proof.
  change fs with ([] ++ fs)%list at 1.
  apply CriticFacts.fold_grouped. split; [constructor | intros k; reflexivity].
Qed.

Lemma group_of_key (fs : list finding) (k : string) (v : issue) :
  In (k, v) (fold_left step fs []) ->
  rule v = Some k /\ total_occurrences v = Some (Props.occurrences k fs).
Proof.
  intros Hin. destruct (groups_of fs) as [Hnd Hinv].
  specialize (Hinv k). now rewrite (CriticFacts.In_lookup _ _ _ Hnd Hin) in Hinv.
Qed.

Lemma rules_of_groups (fs : list finding) :
  map rule (critique_issues fs)
  = map Some (Specs.distinct [] (map Props.rule_of fs)).
Proof.
  unfold critique_issues.
  rewrite <- (app_nil_l (Specs.distinct [] _)).
  change (@nil string) with (map fst (@nil (string * issue))).
  rewrite <- keys_fold. rewrite !map_map.
  apply map_ext_in. intros [k v] Hin. cbn [fst snd].
  now destruct (group_of_key fs k v Hin).
Qed.

(** X6. One group for each rule, in the order in which the rules first
    occur among the findings; a finding without a rule counts under
    unknown. *)
Theorem critique_issues_one_group_per_rule (fs : list finding) :
  map rule (critique_issues fs)
  = map Some (Specs.distinct [] (map Props.rule_of fs))
  /\ NoDup (map rule (critique_issues fs))
  /\ forall k, In (Some k) (map rule (critique_issues fs))
               <-> In k (map Props.rule_of fs).
Proof.
  rewrite rules_of_groups. split; [reflexivity|]. split.
  - apply NoDup_map_Some, distinct_NoDup.
  - intros k. rewrite in_map_iff. split.
    + intros (x & E & Hin). inversion E; subst.
      now apply distinct_In in Hin.
    + intros Hin. exists k. split; [reflexivity|].
      apply distinct_In. split; [exact Hin | intros []].
Qed.

Lemma occurrences_perm (k : string) (fs fs' : list finding) :
  Permutation fs fs' -> Props.occurrences k fs = Props.occurrences k fs'.
Proof.
  induction 1; cbn [Props.occurrences]; lia.
Qed.

Lemma group_exists (fs : list finding) (k : string) :
  In k (map Props.rule_of fs) ->
  exists v, In v (critique_issues fs)
            /\ rule v = Some k
            /\ total_occurrences v = Some (Props.occurrences k fs).
Proof.
  intros Hin.
  assert (Hk : In k (map fst (fold_left step fs []))).
  { rewrite keys_fold. cbn [map app]. apply distinct_In.
    split; [exact Hin | intros []]. }
  apply in_map_iff in Hk as ([k' v] & E & Hv). cbn in E. subst k'.
  exists v. split.
  - unfold critique_issues. apply in_map_iff. now exists (k, v).
  - now apply group_of_key.
Qed.

Lemma group_rule (fs : list finding) (v : issue) :
  In v (critique_issues fs) ->
  exists k, In k (map Props.rule_of fs)
            /\ rule v = Some k
            /\ total_occurrences v = Some (Props.occurrences k fs).
Proof.
  unfold critique_issues. intros Hin.
  apply in_map_iff in Hin as ([k v'] & E & Hin). cbn in E. subst v'.
  exists k. split; [|now apply group_of_key].
  assert (Hk : In k (map fst (fold_left step fs []))).
  { apply in_map_iff. now exists (k, v). }
  rewrite keys_fold in Hk. cbn [map app] in Hk.
  now apply distinct_In in Hk.
Qed.

(** X7. The order of the findings does not matter to the rules reported
    nor to their counters. *)
Theorem critique_issues_permutation (fs fs' : list finding) (v : issue) :
  Permutation fs fs' ->
  In v (critique_issues fs) ->
  exists v', In v' (critique_issues fs')
             /\ rule v' = rule v
             /\ total_occurrences v' = total_occurrences v.
Proof.
  intros Hp Hin.
  destruct (group_rule fs v Hin) as (k & Hk & Hr & Ht).
  assert (Hk' : In k (map Props.rule_of fs')).
  { eapply Permutation_in; [|exact Hk]. now apply Permutation_map. }
  destruct (group_exists fs' k Hk') as (v' & Hin' & Hr' & Ht').
  exists v'. split; [exact Hin'|]. split; [congruence|].
  rewrite Ht, Ht'. f_equal. symmetry. now apply occurrences_perm.
Qed.

Lemma critique_issues_permutation_witness :
  exists v',
    In v' (critique_issues [ Props.finding_of "label" 1;
                             Props.finding_of "image-alt" 2;
                             Props.finding_of "image-alt" 2 ])
    /\ rule v' = Some "image-alt"
    /\ total_occurrences v' = Some 2%Z.
Proof.
  apply (critique_issues_permutation
           [ Props.finding_of "image-alt" 2; Props.finding_of "label" 1;
             Props.finding_of "image-alt" 2 ]
           [ Props.finding_of "label" 1; Props.finding_of "image-alt" 2;
             Props.finding_of "image-alt" 2 ]
           (nth 0 (critique_issues
                     [ Props.finding_of "image-alt" 2;
                       Props.finding_of "label" 1;
                       Props.finding_of "image-alt" 2 ]) empty_issue)).
  - apply perm_swap.
  - vm_compute. left. reflexivity.
Defined.

Lemma In_update (k : string) (f : issue -> issue) (g : groups)
      (p : string * issue) :
  In p (update k f g) ->
  In p g \/ exists v, In (fst p, v) g /\ snd p = f v.
Proof.
  induction g as [|[k' v] g IH]; cbn [update]; [intros []|].
  destruct (String.eqb k k').
  - intros [<- | H]; [right; exists v; cbn; auto | left; now right].
  - intros [<- | H]; [left; now left|].
    destruct (IH H) as [H1 | (v0 & H1 & H2)]; [left; now right|].
    right. exists v0. split; [now right | exact H2].
Qed.

Lemma account_snippets (m : nat) (f : finding) (g : issue) :
  Specs.evidence f <= m ->
  (exists sn, code_snippets g = Some sn /\ List.length sn <= 4 + m) ->
  exists sn, code_snippets (account f g) = Some sn /\ List.length sn <= 4 + m.
Proof.
  intros Hm (sn & E & Hl). unfold account.
  cbn [set_total_occurrences code_snippets]. rewrite E. cbn [or_default].
  destruct (Nat.ltb_spec (List.length sn) 5) as [Hlt|Hge].
  - cbn [set_code_snippets code_snippets]. eexists. split; [reflexivity|].
    rewrite length_app. unfold Specs.evidence in Hm. lia.
  - cbn [code_snippets]. exists sn. split; [exact E | exact Hl].
Qed.

Lemma step_snippets (m : nat) (g : groups) (f : finding) :
  Specs.evidence f <= m ->
  (forall p, In p g ->
             exists sn, code_snippets (snd p) = Some sn
                        /\ List.length sn <= 4 + m) ->
  forall p, In p (step g f) ->
            exists sn, code_snippets (snd p) = Some sn
                       /\ List.length sn <= 4 + m.
Proof.
  intros Hm Hg p Hin. unfold step in Hin.
  set (r := or_default "unknown" (f_rule f)) in *.
  assert (Hg1 : forall q,
             In q (if has_key r g then g
                   else (g ++ [(r, new_group r f)])%list) ->
             exists sn, code_snippets (snd q) = Some sn
                        /\ List.length sn <= 4 + m).
  { intros q Hq. destruct (has_key r g); [now apply Hg|].
    apply in_app_iff in Hq as [Hq | [<- | []]]; [now apply Hg|].
    exists []. cbn. split; [reflexivity | lia]. }
  apply In_update in Hin as [Hin | (v & Hin & E)]; [now apply Hg1|].
  rewrite E. apply account_snippets; [exact Hm|].
  apply (Hg1 (fst p, v) Hin).
Qed.

(** X8. A group holds fewer than five snippets when a finding is added
    to it: it never holds more than four and the evidence of one
    finding. *)
Theorem critique_issues_snippet_bound
        (m : nat) (fs : list finding) (v : issue) :
  (forall f, In f fs -> Specs.evidence f <= m) ->
  In v (critique_issues fs) ->
  exists sn, code_snippets v = Some sn /\ List.length sn <= 4 + m.
Proof.
  intros Hm Hin. unfold critique_issues in Hin.
  apply in_map_iff in Hin as (p & <- & Hin).
  revert p Hin.
  assert (H : forall g,
             (forall p, In p g ->
                        exists sn, code_snippets (snd p) = Some sn
                                   /\ List.length sn <= 4 + m) ->
             forall p, In p (fold_left step fs g) ->
                       exists sn, code_snippets (snd p) = Some sn
                                  /\ List.length sn <= 4 + m).
  { induction fs as [|f fs IH]; intros g Hg; [exact Hg|].
    cbn [fold_left]. apply IH.
    - intros f' Hf'. apply Hm. now right.
    - apply step_snippets; [apply Hm; now left | exact Hg]. }
  apply H. intros p [].
Qed.

Lemma critique_issues_snippet_bound_witness :
  exists sn,
    code_snippets (nth 0 (critique_issues [ Props.finding_of "image-alt" 3;
                                            Props.finding_of "image-alt" 3 ])
                       empty_issue) = Some sn
    /\ List.length sn <= 4 + 3.
Proof.
  apply (critique_issues_snippet_bound 3
           [ Props.finding_of "image-alt" 3; Props.finding_of "image-alt" 3 ]).
  - intros f [<- | [<- | []]]; vm_compute; lia.
  - vm_compute. left. reflexivity.
Defined.




End GrouperFacts.

(** ** More on the keyboard trace *)

Module TraceFacts.
Import Model Nodes.
Local Open Scope string_scope.

Lemma count_In (x : string) (l : list string) :
  In x l -> 1 <= Specs.count x l.
Proof.
  unfold Specs.count. induction l as [|y l IH]; [intros []|].
  cbn [filter]. intros [-> | H].
  - rewrite String.eqb_refl. cbn. lia.
  - destruct (String.eqb x y); cbn [List.length]; auto with arith.
Qed.

Lemma append_inv_tail (a b s : string) :
  (a ++ s = b ++ s)%string -> a = b.
Proof.
  revert b. induction a as [|c a IH]; intros [|c' b] H; cbn in H.
  - reflexivity.
  - apply (f_equal String.length) in H. cbn in H.
    rewrite TextFacts.length_append in H. lia.
  - apply (f_equal String.length) in H. cbn in H.
    rewrite TextFacts.length_append in H. lia.
  - inversion H; subst. f_equal. now apply IH.
Qed.

Lemma first_duplicate_found (log : list focus_entry) :
  forall ids_seen d,
    first_duplicate ids_seen log = Some d ->
    (In d ids_seen /\ In d (Props.element_ids log))
    \/ 2 <= Specs.count d (Props.element_ids log).
Proof.
  induction log as [|item log IH]; intros seen d H; [discriminate|].
  cbn [first_duplicate] in H. unfold Props.element_ids. cbn [flat_map].
  fold (Props.element_ids log).
  destruct (fe_id item) as [i|]; [|now apply IH].
  destruct (nonempty i) eqn:En; [|now apply IH].
  cbn [app].
  destruct (mem i seen) eqn:Em.
  - inversion H; subst. left. split; [|now left].
    now apply InteractionFacts.mem_In.
  - apply IH in H as [[[<- | Hs] Hin] | Hc].
    + right. unfold Specs.count. cbn [filter]. rewrite String.eqb_refl.
      cbn [List.length]. apply count_In in Hin. unfold Specs.count in Hin. lia.
    + left. split; [exact Hs | now right].
    + right. unfold Specs.count in *. cbn [filter].
      destruct (String.eqb d i); cbn [List.length]; lia.
Qed.

Lemma first_duplicate_clean (log : list focus_entry) :
  forall ids_seen,
    first_duplicate ids_seen log = None ->
    NoDup (Props.element_ids log)
    /\ forall x, In x (Props.element_ids log) -> ~ In x ids_seen.
Proof.
  induction log as [|item log IH]; intros seen H.
  - split; [constructor | intros x []].
  - cbn [first_duplicate] in H. unfold Props.element_ids. cbn [flat_map].
    fold (Props.element_ids log).
    destruct (fe_id item) as [i|]; [|now apply IH].
    destruct (nonempty i) eqn:En; [|now apply IH].
    destruct (mem i seen) eqn:Em; [discriminate|].
    destruct (IH _ H) as [Hnd Hout]. cbn [app]. split.
    + constructor; [|exact Hnd]. intros Hin. apply (Hout _ Hin). now left.
    + intros x [<- | Hin].
      * intros Hs. apply InteractionFacts.mem_In in Hs. congruence.
      * intros Hs. apply (Hout _ Hin). now right.
Qed.

Ltac rules_differ :=
  repeat match goal with
         | |- NoDup [] => constructor
         | |- NoDup (_ :: _) => constructor
         | |- ~ In _ _ => cbn; intuition discriminate
         end.

(** X11. Each of the four checks reports at most once: no two issues of
    a trace have the same rule, and there are at most four. *)
Theorem interaction_one_issue_per_rule (log : list focus_entry) :
  NoDup (map rule (interaction_issues_of log))
  /\ List.length (interaction_issues_of log) <= 4.
Proof.
  unfold interaction_issues_of. destruct log as [|item log].
  - split; [constructor | cbn; lia].
  - destruct (Nat.ltb 1 _); destruct (filter non_interactive _);
      destruct (Nat.ltb _ 5); destruct (first_duplicate _ _);
      cbn [app map rule focus_lost_issue non_interactive_issue
               limited_access_issue duplicate_id_issue List.length];
      (split; [rules_differ | lia]).
Qed.

(** X12. The duplicate-identifier issue is reported exactly when some
    identifier occurs twice in the trace, and it names an identifier that
    does. *)
Theorem interaction_duplicate_id (log : list focus_entry) :
  ((exists i, In i (interaction_issues_of log)
              /\ rule i = Some "duplicate-id-focusable")
   <-> ~ NoDup (Props.element_ids log))
  /\ forall d, In (duplicate_id_issue d) (interaction_issues_of log) ->
               2 <= Specs.count d (Props.element_ids log).
Proof.
  assert (Hshape : forall i,
             In i (interaction_issues_of log) ->
             rule i = Some "duplicate-id-focusable" ->
             exists d, first_duplicate [] log = Some d
                       /\ i = duplicate_id_issue d).
  { intros i Hin Hr. unfold interaction_issues_of in Hin.
    destruct log as [|item log]; [destruct Hin|].
    repeat (apply in_app_iff in Hin as [Hin | Hin]).
    - destruct (Nat.ltb 1 _); [|destruct Hin].
      destruct Hin as [<- | []]. discriminate Hr.
    - destruct (filter non_interactive _); [destruct Hin|].
      destruct Hin as [<- | []]. discriminate Hr.
    - destruct (Nat.ltb _ 5); [|destruct Hin].
      destruct Hin as [<- | []]. discriminate Hr.
    - destruct (first_duplicate [] (item :: log)) as [d|]; [|destruct Hin].
      destruct Hin as [<- | []]. now exists d. }
  split; [split|].
  - intros (i & Hin & Hr) Hnd.
    destruct (Hshape i Hin Hr) as (d & E & _).
    rewrite InteractionFacts.first_duplicate_none in E;
      [discriminate | exact Hnd | intros x _ []].
  - intros Hdup.
    destruct (first_duplicate [] log) as [d|] eqn:E.
    + exists (duplicate_id_issue d). split; [|reflexivity].
      unfold interaction_issues_of. destruct log as [|item log];
        [discriminate E|].
      rewrite E. rewrite !in_app_iff. right. right. right. now left.
    + destruct Hdup. now apply first_duplicate_clean in E.
  - intros d Hin.
    destruct (Hshape _ Hin eq_refl) as (d' & E & Hd).
    assert (d = d') as <-.
    { assert (H : html_snippet (duplicate_id_issue d)
                  = html_snippet (duplicate_id_issue d')) by now rewrite Hd.
      cbn in H. inversion H as [H1].
      now apply append_inv_tail in H1. }
    apply first_duplicate_found in E as [[[] _] | Hc]. exact Hc.
Qed.

(** X13. The trace gives no issue exactly when it is empty, or has five
    entries or more, the body focused at most once, no non-interactive
    element and no identifier twice. *)
Theorem interaction_no_issue (log : list focus_entry) :
  interaction_issues_of log = []
  <-> log = []
      \/ (5 <= List.length log
          /\ Props.body_focused log <= 1
          /\ forallb (fun item => negb (non_interactive item)) log = true
          /\ NoDup (Props.element_ids log)).
Proof.
  split.
  - intros H. destruct log as [|item log]; [now left|]. right.
    unfold interaction_issues_of in H.
    apply app_eq_nil in H as [H1 H]. apply app_eq_nil in H as [H2 H].
    apply app_eq_nil in H as [H3 H4].
    repeat split.
    + destruct (Nat.ltb_spec (List.length (item :: log)) 5);
        [discriminate H3 | assumption].
    + unfold Props.body_focused.
      destruct (Nat.ltb_spec 1 (List.length
                                  (filter (tag_is "BODY") (item :: log))));
        [discriminate H1 | lia].
    + destruct (filter non_interactive (item :: log)) eqn:E;
        [|discriminate H2].
      apply forallb_forall. intros x Hx.
      destruct (non_interactive x) eqn:Ex; [|reflexivity].
      assert (Hin : In x (filter non_interactive (item :: log)))
        by (apply filter_In; auto).
      rewrite E in Hin. destruct Hin.
    + destruct (first_duplicate [] (item :: log)) eqn:E; [discriminate H4|].
      now apply first_duplicate_clean in E.
  - intros [-> | (Hlen & Hbody & Hni & Hnd)]; [reflexivity|].
    unfold interaction_issues_of. destruct log as [|item log];
      [reflexivity|].
    rewrite (InteractionFacts.filter_none _ _ _ Hni).
    rewrite (InteractionFacts.first_duplicate_none _ [] Hnd)
      by (intros x _ []).
    unfold Props.body_focused in Hbody.
    destruct (Nat.ltb_spec 1 (List.length
                                (filter (tag_is "BODY") (item :: log))));
      [lia|].
    destruct (Nat.ltb_spec (List.length (item :: log)) 5); [lia|].
    reflexivity.
Qed.

End TraceFacts.

(** ** More on the nodes and the run of the graph *)

Module PipelineFacts.
Import Model Nodes Workflow.
Local Open Scope string_scope.



Section Loop.

Variable w : World.
Variable els : list element.





End Loop.







End PipelineFacts.

(** ** cache/redis_cache.py *)

Module RedisCacheFacts.
Import Model RedisCache.
Local Open Scope string_scope.

(** The model of MD5 on the test vectors of RFC 1321 and on a URL. *)
Example md5_vectors :
  firstn 2 Md5.T = [ 0xd76aa478; 0xe8c7b756 ]%N
  /\ Md5.hexdigest [] = "d41d8cd98f00b204e9800998ecf8427e"
  /\ Md5.hexdigest [ 97; 98; 99 ]%N = "900150983cd24fb0d6963f7d28e17f72"
  /\ _get_url_key "https://example.com"
     = "audit:recent:c984d06aafbecf6bc55569f964148ea3".
Proof. repeat split; vm_compute; reflexivity. Qed.

Lemma lookup_assign_same (k : string) (v : audit_result)
      (d : list (string * audit_result)) :
  WcagMapper.lookup k (assign k v d) = Some v.
Proof.
  induction d as [|[k' v'] d IH]; cbn.
  - now rewrite String.eqb_refl.
  - destruct (String.eqb k k') eqn:E; cbn; now rewrite E.
Qed.

Lemma lookup_assign_other (k k' : string) (v : audit_result)
      (d : list (string * audit_result)) :
  k' <> k -> WcagMapper.lookup k' (assign k v d) = WcagMapper.lookup k' d.
Proof.
  intros Hne. induction d as [|[k0 v0] d IH]; cbn.
  - destruct (String.eqb_spec k' k); [congruence | reflexivity].
  - destruct (String.eqb_spec k k0) as [->|Hk]; cbn.
    + destruct (String.eqb_spec k' k0); [congruence | reflexivity].
    + destruct (String.eqb k' k0); [reflexivity | exact IH].
Qed.


(** X17. Without a client a saved result is found again, under the URL
    and the fingerprint it was saved with and under every other pair that
    agrees with them on the first 100 and the first 16 characters; what
    is stored under another key is not affected. *)
Theorem memory_cache_round_trip
        (c : cache) (url dom_hash url' dom_hash' : string)
        (result : audit_result) :
  redis_client c = None ->
  let c' := snd (save_cached_result url dom_hash result c) in
  fst (save_cached_result url dom_hash result c) = true
  /\ fst (get_cached_result url dom_hash c') = Some result
  /\ (DomCache.prefix 100 url' = DomCache.prefix 100 url ->
      DomCache.prefix 16 dom_hash' = DomCache.prefix 16 dom_hash ->
      fst (get_cached_result url' dom_hash' c') = Some result)
  /\ (DomCache._get_cache_key url' dom_hash'
      <> DomCache._get_cache_key url dom_hash ->
      fst (get_cached_result url' dom_hash' c')
      = fst (get_cached_result url' dom_hash' c)).
Proof.
  intros Hc. cbv zeta.
  unfold save_cached_result, get_cached_result, save, read. rewrite Hc.
  cbn [fst snd redis_client _memory_cache].
  repeat split.
  - apply lookup_assign_same.
  - intros Hu Hd. unfold DomCache._get_cache_key. rewrite Hu, Hd.
    apply lookup_assign_same.
  - intros Hne. now apply lookup_assign_other.
Qed.

Lemma memory_cache_round_trip_witness :
  fst (get_cached_result
         "https://example.com/a" "0123456789abcdef0000"
         (snd (save_cached_result
                 "https://example.com/a" "0123456789abcdefffff"
                 (AuditResult 0 []) Specs.memory_only)))
  = Some (AuditResult 0 []).
Proof.
  apply (memory_cache_round_trip Specs.memory_only
           "https://example.com/a" "0123456789abcdefffff"
           "https://example.com/a" "0123456789abcdef0000"
           (AuditResult 0 []) eq_refl); reflexivity.
Defined.

(** X18. Without a client the recent audit of a URL is found again
    whatever time to live it was saved with. *)
Theorem recent_audit_round_trip
        (c : cache) (url : string) (result : audit_result) (ttl : N) :
  redis_client c = None ->
  fst (save_recent_audit url result ttl c) = true
  /\ fst (get_recent_audit url (snd (save_recent_audit url result ttl c)))
     = Some result.
Proof.
  intros Hc. unfold save_recent_audit, get_recent_audit, save, read.
  rewrite Hc. cbn [fst snd redis_client _memory_cache].
  split; [reflexivity | apply lookup_assign_same].
Qed.

Lemma recent_audit_round_trip_witness :
  fst (get_recent_audit "https://example.com"
         (snd (save_recent_audit "https://example.com" (AuditResult 0 [])
                                 0 Specs.memory_only)))
  = Some (AuditResult 0 []).
Proof.
  apply (recent_audit_round_trip Specs.memory_only "https://example.com"
           (AuditResult 0 []) 0 eq_refl).
Defined.

(** X19. With a client, a result that the client refused goes to the
    fallback dictionary and the save reports success, yet no read looks
    there: when the client has no answer the result is not found. *)
Theorem fallback_is_not_read
        (c : cache) (client : Redis) (url dom_hash : string)
        (result : audit_result) :
  redis_client c = Some client ->
  redis_setex client (redis_calls c)
              (DomCache._get_cache_key url dom_hash) CACHE_TTL result
  = false ->
  (forall found,
      redis_get client (S (redis_calls c))
                (DomCache._get_cache_key url dom_hash) <> Value found) ->
  let c' := snd (save_cached_result url dom_hash result c) in
  fst (save_cached_result url dom_hash result c) = true
  /\ WcagMapper.lookup (DomCache._get_cache_key url dom_hash)
                       (_memory_cache c') = Some result
  /\ fst (get_cached_result url dom_hash c') = None.
Proof.
  intros Hc Hset Hget. cbv zeta.
  unfold save_cached_result, get_cached_result, save, read.
  rewrite Hc, Hset. cbn [fst snd redis_client redis_calls _memory_cache].
  repeat split.
  - apply lookup_assign_same.
  - destruct (redis_get client (S (redis_calls c))
                (DomCache._get_cache_key url dom_hash)) eqn:E;
      try reflexivity.
    destruct (Hget cached). reflexivity.
Qed.

Lemma fallback_is_not_read_witness :
  let c := Cache (Some Specs.failing_client) 0 [] in
  fst (get_cached_result "https://example.com" "0123456789abcdef"
         (snd (save_cached_result "https://example.com" "0123456789abcdef"
                                  (AuditResult 0 []) c)))
  = None.
Proof.
  cbv zeta.
  apply (fallback_is_not_read (Cache (Some Specs.failing_client) 0 [])
           Specs.failing_client "https://example.com" "0123456789abcdef"
           (AuditResult 0 []) eq_refl eq_refl).
  intros found. discriminate.
Defined.

Lemma hexdigest_head (html : string) :
  exists n rest,
    DomCache.prefix 16 (DomCache.compute_dom_hash html)
    = String (Sha256.hex_digit n) rest.
Proof.
  unfold DomCache.prefix, DomCache.compute_dom_hash, Sha256.hexdigest.
  rewrite !TextFacts.of_to_string.
  unfold Sha256.hex_regs, Sha256.hex_word. cbn [app firstn].
  eexists. eexists. unfold Text.to_string. cbn [string_of_list_ascii].
  reflexivity.
Qed.

(** X20. The two caches share one dictionary and one client; the key of
    a content entry made from a fingerprint of [compute_dom_hash] is never
    the key of a recent audit. *)
Theorem cache_keys_apart (url html url' : string) :
  DomCache._get_cache_key url (DomCache.compute_dom_hash html)
  <> _get_url_key url'.
Proof.
  unfold DomCache._get_cache_key, _get_url_key.
  destruct (hexdigest_head html) as (n & rest & ->).
  cbn [String.append]. intros H. injection H as H.
  pose proof (DomCacheFacts.hex_digit_lower_hex n) as Hh.
  rewrite H in Hh. discriminate Hh.
Qed.

End RedisCacheFacts.

(** ** main.py: the audit endpoint *)

Module MainFacts.
Import Model RedisCache Main.
Local Open Scope string_scope.



Lemma read_memory (key : string) (c : cache) :
  redis_client c = None ->
  read key c = (WcagMapper.lookup key (_memory_cache c), c).
Proof. intros H. unfold read. now rewrite H. Qed.

(** The run of the graph on a page that could not be scanned. *)
Lemma audit_graph_failed_scan (w : World) (request_url e : string) :
  sr_error (scan_page w request_url) = Some e ->
  Workflow.report_of
    (Workflow.audit_graph w (Workflow.initial_state request_url)) = []
  /\ Specs.fingerprint_of
       (Workflow.audit_graph w (Workflow.initial_state request_url))
     = EmptyString
  /\ Workflow.audit_graph w (Workflow.initial_state request_url) <> None.
Proof.
  intros He. unfold Workflow.audit_graph.
  rewrite WorkflowFacts.input_guard_verdict_is_dropped.
  unfold Nodes.scanner_node, Workflow.initial_state.
  cbn [Workflow.and_then error url]. rewrite He.
  cbn [Workflow.and_then merge over url error screenshot_b64 dom_hash
       raw_violations dom_content tab_log critiqued_issues vision_issues
       semantic_issues interaction_issues final_report].
  unfold Nodes.critic_node.
  cbn [Workflow.and_then raw_violations or_default].
  rewrite WorkflowFacts.fast_critique_nil. cbn.
  repeat split. discriminate.
Qed.

(** X21. A page that could not be scanned is answered as a successful
    audit without issues, and nothing is saved. *)
Theorem start_audit_failed_scan
        (w : World) (request : AuditRequest) (c : cache) (e : string) :
  sr_error (scan_page w (request_url request)) = Some e ->
  force_rescan request = true
  \/ fst (get_recent_audit (request_url request) c) = None ->
  fst (start_audit w request c)
  = Returned (Response "success" (request_url request) false 0 [])
  /\ _memory_cache (snd (start_audit w request c)) = _memory_cache c.
Proof.
  intros He Hmiss.
  destruct (audit_graph_failed_scan w (request_url request) e He)
    as (Hrep & Hfp & Hrun).
  unfold start_audit.
  assert (Hfirst :
            exists c1,
              (if force_rescan request then (None, c)
               else get_recent_audit (request_url request) c) = (None, c1)
              /\ _memory_cache c1 = _memory_cache c).
  { destruct (force_rescan request).
    - exists c. split; reflexivity.
    - destruct Hmiss as [Hf | Hm]; [discriminate Hf|].
      unfold get_recent_audit, read in *.
      destruct (redis_client c) as [client|].
      + destruct (redis_get client (redis_calls c)
                    (_get_url_key (request_url request)));
          try discriminate Hm; eexists; split; reflexivity.
      + cbn [fst] in Hm. rewrite Hm. exists c. split; reflexivity. }
  destruct Hfirst as (c1 & -> & Hm1).
  destruct (Workflow.audit_graph w
              (Workflow.initial_state (request_url request)))
    as [[h final_state]|]; [|congruence].
  cbn [Workflow.report_of Specs.fingerprint_of] in Hrep, Hfp.
  rewrite Hrep, Hfp. cbn [nonempty andb]. rewrite andb_false_r.
  cbn [fst snd List.length]. split; [reflexivity | exact Hm1].
Qed.

Lemma start_audit_failed_scan_witness :
  fst (start_audit
         (MkWorld InputGuard.cpython_netloc
                  (fun _ => ScanResult (Some "net::ERR_NAME_NOT_RESOLVED")
                                       [] None EmptyString
                                       empty_dom_content [])
                  false (fun _ => CallFailed) (fun _ _ => None)
                  (fun _ => None) (fun _ _ => None))
         (Request "https://no-such-host.example" false)
         Specs.memory_only)
  = Returned (Response "success" "https://no-such-host.example" false 0 []).
Proof.
  apply (start_audit_failed_scan
           (MkWorld InputGuard.cpython_netloc
                    (fun _ => ScanResult (Some "net::ERR_NAME_NOT_RESOLVED")
                                         [] None EmptyString
                                         empty_dom_content [])
                    false (fun _ => CallFailed) (fun _ _ => None)
                    (fun _ => None) (fun _ _ => None))
           (Request "https://no-such-host.example" false)
           Specs.memory_only "net::ERR_NAME_NOT_RESOLVED" eq_refl).
  right. reflexivity.
Defined.



(** X23. Without a client, once a request has been answered by a fresh
    audit of a page with a fingerprint, every later request for the same
    URL that does not force a rescan gets that report again, marked as
    cached, whatever the page has become: the dictionary has no expiry. *)
Theorem start_audit_repeat_is_served_from_memory
        (w1 w2 : World) (request : AuditRequest) (c c1 : cache)
        (r1 : response) :
  redis_client c = None ->
  start_audit w1 request c = (Returned r1, c1) ->
  cached r1 = false ->
  nonempty (Specs.fingerprint_of
              (Workflow.audit_graph w1
                 (Workflow.initial_state (request_url request)))) = true ->
  start_audit w2 (Request (request_url request) false) c1
  = (Returned (Response "success" (request_url request) true
                        (summary_total r1) (response_report r1)), c1).
Proof.
  intros Hc Hrun1 Hfresh Hfp. unfold start_audit in Hrun1.
  assert (Hfirst :
            (if force_rescan request then (None, c)
             else get_recent_audit (request_url request) c)
            = ((if force_rescan request then None
                else WcagMapper.lookup (_get_url_key (request_url request))
                                       (_memory_cache c)), c)).
  { destruct (force_rescan request); [reflexivity|].
    unfold get_recent_audit. now apply read_memory. }
  rewrite Hfirst in Hrun1. clear Hfirst.
  destruct (if force_rescan request then None
            else WcagMapper.lookup (_get_url_key (request_url request))
                                   (_memory_cache c)) as [found|].
  { inversion Hrun1; subst. discriminate Hfresh. }
  destruct (Workflow.audit_graph w1
              (Workflow.initial_state (request_url request)))
    as [[h final_state]|]; [|discriminate Hrun1].
  cbn [Specs.fingerprint_of] in Hfp. rewrite Hfp in Hrun1.
  rewrite andb_true_r in Hrun1.
  assert (Hsecond :
            (if negb (force_rescan request)
             then get_cached_result (request_url request)
                    (or_default EmptyString (dom_hash final_state)) c
             else (None, c))
            = ((if negb (force_rescan request)
                then WcagMapper.lookup
                       (DomCache._get_cache_key (request_url request)
                          (or_default EmptyString (dom_hash final_state)))
                       (_memory_cache c)
                else None), c)).
  { destruct (negb (force_rescan request)); [|reflexivity].
    unfold get_cached_result. now apply read_memory. }
  rewrite Hsecond in Hrun1. clear Hsecond.
  destruct (if negb (force_rescan request)
            then WcagMapper.lookup _ (_memory_cache c)
            else None) as [found|].
  { inversion Hrun1; subst. discriminate Hfresh. }
  inversion Hrun1 as [[Hr1 Hc1]]. clear Hrun1.
  unfold save_recent_audit, save_cached_result, save. rewrite Hc.
  cbn [snd redis_client redis_calls _memory_cache].
  unfold start_audit. cbn [force_rescan request_url].
  unfold get_recent_audit, read. cbn [redis_client _memory_cache].
  rewrite RedisCacheFacts.lookup_assign_same. reflexivity.
Qed.

Lemma start_audit_repeat_is_served_from_memory_witness :
  let first :=
    start_audit Props.page_world (Request "https://example.com" false)
                Specs.memory_only in
  match fst (start_audit Props.quiet_world
               (Request "https://example.com" false) (snd first)) with
  | Returned r =>
      cached r = true
      /\ map rule (response_report r)
         = [ Some "image-alt"; Some "limited-keyboard-access" ]
  | Http500 => False
  end.
Proof.
  cbv zeta.
  destruct (start_audit Props.page_world
              (Request "https://example.com" false) Specs.memory_only)
    as [out c1] eqn:E.
  destruct out as [r1|]; [|vm_compute in E; discriminate E].
  cbn [snd].
  assert (H : start_audit Props.quiet_world
                (Request "https://example.com" false) c1
              = (Returned (Response "success" "https://example.com" true
                                    (summary_total r1) (response_report r1)),
                 c1)).
  { apply (start_audit_repeat_is_served_from_memory
             Props.page_world Props.quiet_world
             (Request "https://example.com" false) Specs.memory_only c1 r1
             eq_refl E).
    - vm_compute in E. inversion E; subst. reflexivity.
    - vm_compute. reflexivity. }
  rewrite H. cbn [fst cached response_report].
  vm_compute in E. inversion E; subst. split; reflexivity.
Defined.

End MainFacts.

(** ** tools/wcag_mapper.py and tools/dom_scanner.py *)

Module ScannerFacts.
Import Model WcagMapper DomScanner.
Local Open Scope string_scope.

Lemma critical_lookup (k : string) :
  String.eqb
    (india_priority
       (or_default (RuleDef "Unknown" "?" "2.1" k "LOW")
                   (lookup k WCAG_RULES))) "CRITICAL"
  = mem k Specs.critical_rules.
Proof.
  unfold WCAG_RULES, Specs.critical_rules, mem.
  cbn [lookup existsb].
  repeat match goal with
         | |- context [String.eqb k ?s] =>
             destruct (String.eqb_spec k s) as [->|_]; [reflexivity|]
         end.
  reflexivity.
Qed.

(** X24. The priority of a finding is HIGH for the six rules the table
    rates CRITICAL and MEDIUM for every other rule, known or not; the
    finding carries the nodes of the violation as its evidence, and
    neither a selector nor an affected-node count. *)
Theorem enrich_with_wcag_priority (v : violation) :
  f_fix_priority (enrich_with_wcag v)
  = Some (if mem (v_id v) Specs.critical_rules then "HIGH" else "MEDIUM")
  /\ f_rule (enrich_with_wcag v) = Some (v_id v)
  /\ f_specific_nodes (enrich_with_wcag v) = Some (v_nodes v)
  /\ f_selector (enrich_with_wcag v) = None
  /\ f_nodes_affected (enrich_with_wcag v) = None.
Proof.
  unfold enrich_with_wcag. cbn [f_fix_priority f_rule f_specific_nodes
                                f_selector f_nodes_affected].
  rewrite critical_lookup. repeat split.
Qed.

Lemma drop_while_nil (f : ascii -> bool) (s : Text.text) :
  Text.drop_while f s = [] -> forallb f s = true.
Proof.
  induction s as [|c s IH]; [reflexivity|].
  cbn. destruct (f c); [exact IH | discriminate].
Qed.

Lemma drop_while_head (f : ascii -> bool) (s : Text.text) :
  match Text.drop_while f s with
  | [] => True
  | c :: _ => f c = false
  end.
Proof.
  induction s as [|c s IH]; [exact I|].
  cbn. destruct (f c) eqn:E; [exact IH | exact E].
Qed.

Lemma strip_nil (s : Text.text) :
  Text.strip s = [] -> forallb Text.is_space s = true.
Proof.
  unfold Text.strip. intros H.
  apply (f_equal (@rev ascii)) in H. rewrite rev_involutive in H. cbn in H.
  apply drop_while_nil in H. rewrite forallb_forall in H.
  pose proof (drop_while_head Text.is_space s) as Hh.
  destruct (Text.drop_while Text.is_space s) as [|c t] eqn:E.
  - now apply drop_while_nil.
  - assert (Hc : Text.is_space c = true).
    { apply H. apply in_rev. rewrite rev_involutive. now left. }
    congruence.
Qed.

Lemma not_blank_visible (h : string) :
  blank (Some h) = false -> Specs.visible h = true.
Proof.
  unfold blank, Specs.visible. intros H.
  apply orb_false_iff in H as [_ H]. apply negb_false_iff in H.
  destruct (existsb (fun c => negb (Text.is_space c)) (Text.of_string h))
    eqn:E; [reflexivity|].
  assert (Hall : forallb Text.is_space (Text.of_string h) = true).
  { apply forallb_forall. intros c Hc.
    destruct (Text.is_space c) eqn:Ec; [reflexivity|].
    assert (Hex : existsb (fun c => negb (Text.is_space c))
                          (Text.of_string h) = true).
    { apply existsb_exists. exists c. now rewrite Ec. }
    congruence. }
  assert (Hs : Text.strip (Text.of_string h) = []).
  { unfold Text.strip.
    assert (Hd : forall s, forallb Text.is_space s = true ->
                           Text.drop_while Text.is_space s = []).
    { induction s as [|c s IH]; [reflexivity|].
      cbn. intros Hcs. apply andb_true_iff in Hcs as [-> Hcs]. now apply IH. }
    rewrite (Hd _ Hall). reflexivity. }
  rewrite Hs in H. discriminate H.
Qed.

Lemma placeholder_visible (selector : string) :
  Specs.visible (placeholder selector) = true.
Proof.
  unfold placeholder.
  destruct (Text.contains "html" selector); [reflexivity|].
  destruct (Text.contains "body" selector); reflexivity.
Qed.

Lemma clean_node_visible (raw : axe_node) :
  Specs.visible (n_html (clean_node raw)) = true.
Proof.
  unfold clean_node. cbn [n_html].
  destruct (blank (an_html raw)) eqn:E; [apply placeholder_visible|].
  destruct (an_html raw) as [h|]; [|discriminate E].
  cbn [or_default]. now apply not_blank_visible.
Qed.

(** X25. What the scanner hands on always shows code: one entry for each
    violation of the report, with as many nodes as axe listed, each with
    markup in which some character is not white space; markup of that
    kind that axe did deliver is kept as it is. *)
Theorem clean_violations_code_is_present (violations : list axe_violation) :
  map s_id (clean_violations violations) = map av_id violations
  /\ Forall (fun s =>
               s_count s = List.length (s_nodes s)
               /\ forallb (fun n => Specs.visible (n_html n)) (s_nodes s)
                  = true)
            (clean_violations violations)
  /\ forall raw h,
       an_html raw = Some h -> Specs.visible h = true ->
       n_html (clean_node raw) = h.
Proof.
  split; [|split].
  - unfold clean_violations. rewrite map_map. reflexivity.
  - apply Forall_forall. intros s Hin. unfold clean_violations in Hin.
    apply in_map_iff in Hin as (v & <- & _). cbn [s_count s_nodes].
    split; [now rewrite length_map|].
    apply forallb_forall. intros n Hn.
    apply in_map_iff in Hn as (raw & <- & _). apply clean_node_visible.
  - intros raw h E Hv. unfold clean_node. cbn [n_html]. rewrite E.
    cbn [or_default].
    destruct (blank (Some h)) eqn:Eb; [|reflexivity].
    exfalso. unfold blank in Eb. unfold Specs.visible in Hv.
    apply existsb_exists in Hv as (c & Hc & Hn).
    apply orb_true_iff in Eb as [Eb | Eb].
    + destruct h; [destruct Hc | discriminate Eb].
    + apply negb_true_iff in Eb.
      destruct (Text.strip (Text.of_string h)) eqn:Es; [|discriminate Eb].
      apply strip_nil in Es. rewrite forallb_forall in Es.
      rewrite (Es c Hc) in Hn. discriminate Hn.
Qed.

End ScannerFacts.
